(** * Metadata extraction of the music catalog backend (app.py)

    A shallow embedding of [extract_metadata] and of the route
    [handle_extract_metadata], and the properties of the extraction
    pipeline: cleanup of temporary files, failure paths, tag strategies,
    defaults and request validation; then, in [Catalog], the routes that
    list, add, delete and edit the songs of the catalog.

    The collaborators the code calls (requests, mutagen, the clock, the
    temporary directory) are a [world] the functions are parameterised by;
    the file system and the calls made are an explicit [store]; Python
    exceptions are the left summand of an error-and-state monad in which a
    raise keeps every assignment and every file made before it. *)

From Stdlib Require Import ZArith Ascii String List Bool Lia.
From stdpp Require Import base option strings gmap list.

Local Open Scope Z_scope.
Local Open Scope string_scope.
Local Open Scope list_scope.

(** ** Python values *)

Module Py.

(** The values a tag lookup, a local variable or a field of the returned
    dict holds.  [PyObj] is any other object: it is true in a condition and
    has none of the methods of [str] (mutagen's time stamp of a TDRC frame is
    one). *)
Inductive pyval : Type :=
  | PyNone
  | PyStr (s : string)
  | PyInt (z : Z)
  | PyObj.

(** Subclasses of [Exception] the modelled code can meet. *)
Inductive exn : Type :=
  | AttributeError
  | IndexError
  | KeyError
  | TypeError
  | ValueError
  | FileNotFoundError
  | RequestException
  | MutagenError
  | BadRequest.

(** [bool(v)], the test behind [if v], [not v] and [v or d]. *)
Definition truthy (v : pyval) : bool :=
  match v with
  | PyNone => false
  | PyStr s => negb (String.eqb s "")
  | PyInt z => negb (Z.eqb z 0)
  | PyObj => true
  end.

(** [a or b] *)
Definition py_or (a b : pyval) : pyval := if truthy a then a else b.

(** [s.startswith(p)] *)
Fixpoint startswith (p s : string) : bool :=
  match p with
  | EmptyString => true
  | String a p' =>
      match s with
      | EmptyString => false
      | String b s' => Ascii.eqb a b && startswith p' s'
      end
  end.

(** [p in s] on two strings: [p] occurs in [s]. *)
Fixpoint contains (p s : string) : bool :=
  startswith p s ||
  match s with
  | EmptyString => false
  | String _ s' => contains p s'
  end.

Arguments startswith : simpl never.
Arguments contains : simpl never.

(** [s.split('-')[0]]: the part of [s] before its first dash, all of [s]
    when it has none. *)
Fixpoint before_dash (s : string) : string :=
  match s with
  | EmptyString => EmptyString
  | String c s' => if Ascii.eqb c "-" then EmptyString else String c (before_dash s')
  end.

(** *** [int(s)] on a string, base ten

    A string is a sequence of characters with code points below 256.  In
    this range the decimal digits are the ASCII ones, and the white space
    [int] drops around the number is the ASCII white space (9 to 13 and 32),
    U+0085 and U+00A0; the separators 28 to 31 are not dropped.  One sign is
    allowed, and what is left is decimal digits in which single underscores
    may separate two digits.  A string with more digits than
    [max_str_digits] is refused, as CPython does since 3.11. *)

Definition is_space (c : ascii) : bool :=
  let n := nat_of_ascii c in
  Nat.eqb n 32 || (Nat.leb 9 n && Nat.leb n 13) || Nat.eqb n 133 || Nat.eqb n 160.

Definition is_digit (c : ascii) : bool :=
  let n := nat_of_ascii c in Nat.leb 48 n && Nat.leb n 57.

Definition digit_value (c : ascii) : Z := Z.of_nat (nat_of_ascii c) - 48.

Fixpoint lstrip (s : string) : string :=
  match s with
  | EmptyString => EmptyString
  | String c s' => if is_space c then lstrip s' else s
  end.

Fixpoint rstrip (s : string) : string :=
  match s with
  | EmptyString => EmptyString
  | String c s' =>
      match rstrip s' with
      | EmptyString => if is_space c then EmptyString else String c EmptyString
      | r => String c r
      end
  end.

(** [after_digit] tells whether the character just read was a digit: an
    underscore and the end of the string are accepted only then. *)
Fixpoint digits (acc : Z) (after_digit : bool) (s : string) : option Z :=
  match s with
  | EmptyString => if after_digit then Some acc else None
  | String c s' =>
      if is_digit c then digits (10 * acc + digit_value c) true s'
      else if Ascii.eqb c "_" && after_digit then digits acc false s'
      else None
  end.

(** The number after the white space is gone: a sign and the digits. *)
Definition signed_digits (s : string) : option Z :=
  match s with
  | String "+" r => digits 0 false r
  | String "-" r => Z.opp <$> digits 0 false r
  | r => digits 0 false r
  end.

Fixpoint count_digits (s : string) : Z :=
  match s with
  | EmptyString => 0
  | String c s' => (if is_digit c then 1 else 0) + count_digits s'
  end.

(** [sys.get_int_max_str_digits()] as the interpreter starts with it *)
Definition max_str_digits : Z := 4300.

Definition py_int (s : string) : option Z :=
  if Z.ltb max_str_digits (count_digits (rstrip (lstrip s))) then None
  else signed_digits (rstrip (lstrip s)).

Arguments py_int : simpl never.
Arguments before_dash : simpl never.

End Py.
Export Py.

(** ** The world outside the program *)

(** A temporary file's name.  [tempfile] picks a name no file has yet; which
    one is of no matter, so names are numbers and a new one is a number no
    file has. *)
Abbreviation path := positive.

(** What [requests.get(url, stream=True)] hands back: the status code, the
    chunks [iter_content] yields, and the exception that ends the iteration
    early when the connection breaks. *)
Record response : Type := Response {
  status_code : Z;
  iter_content : list string;
  iter_error : option exn
}.

(** [response.ok]: false for the client and server error codes, 400 to 599,
    the ones [raise_for_status] raises for, and true for every other code. *)
Definition ok (r : response) : bool :=
  negb (Z.leb 400 (status_code r) && Z.ltb (status_code r) 600).

(** The object [mutagen.File] returns.  [has_tags] is [hasattr(audio, 'tags')],
    [is_MP3] is [isinstance(audio, MP3)], and [tags] is [audio.tags], a
    mapping from frame names to their values, or [None]. *)
Record audio : Type := Audio {
  has_tags : bool;
  is_MP3 : bool;
  tags : option (gmap string (list pyval))
}.

(** The collaborators, each a function of what it is given: the url for
    [requests.get], the bytes of the file for the three mutagen readers.
    [ID3] maps a frame name to the frame's [data].  [File] may hand back
    [None], as its interface has it; on the file [extract_metadata] gives it,
    whose name ends in [.mp3], mutagen always has a format to try, so a body
    that is no audio makes it raise. *)
Record world : Type := World {
  requests_get : string -> exn + response;
  File : string -> exn + option audio;
  ID3 : string -> exn + gmap string string;
  EasyID3 : string -> exn + gmap string (list pyval);
  now_year : Z
}.

(** ** The store: files and calls *)

Inductive level : Type := Warning | Error.

(** The calls that leave the program, newest first in a [trace].  Of the
    logger only [warning] and [error] are kept, with the constant part of
    the message. *)
Inductive event : Type :=
  | EvGet (url : string)
  | EvCreate (p : path)
  | EvUnlink (p : path)
  | EvFile (p : path)
  | EvID3 (p : path)
  | EvEasyID3 (p : path)
  | EvFrame (key : string)
  | EvLog (l : level) (msg : string).

Record store : Type := Store {
  fs : gmap path string;
  trace : list event
}.

(** The store together with the local variables of [extract_metadata] that
    are assigned inside a [try] and read after it. *)
Record frame : Type := Frame {
  mem : store;
  title : pyval;
  artist : pyval;
  year : pyval;
  image_url : option path
}.

Definition enter (s : store) : frame := Frame s PyNone PyNone PyNone None.

Definition set_fs (f : gmap path string -> gmap path string) (m : frame) : frame :=
  Frame (Store (f (fs (mem m))) (trace (mem m))) (title m) (artist m) (year m) (image_url m).
Definition emit (e : event) (m : frame) : frame :=
  Frame (Store (fs (mem m)) (e :: trace (mem m))) (title m) (artist m) (year m) (image_url m).
Definition set_title (v : pyval) (m : frame) : frame :=
  Frame (mem m) v (artist m) (year m) (image_url m).
Definition set_artist (v : pyval) (m : frame) : frame :=
  Frame (mem m) (title m) v (year m) (image_url m).
Definition set_year (v : pyval) (m : frame) : frame :=
  Frame (mem m) (title m) (artist m) v (image_url m).
Definition set_image_url (v : option path) (m : frame) : frame :=
  Frame (mem m) (title m) (artist m) (year m) v.

(** ** Exceptions and state *)

Definition M (S A : Type) : Type := S -> (exn + A) * S.

Definition ret {S A} (a : A) : M S A := fun m => (inr a, m).
Definition raise {S A} (e : exn) : M S A := fun m => (inl e, m).
Definition bind {S A B} (c : M S A) (k : A -> M S B) : M S B :=
  fun m => match c m with
           | (inr a, m') => k a m'
           | (inl e, m') => (inl e, m')
           end.
(** [try: c except Exception: h] *)
Definition try_except {S A} (c : M S A) (h : exn -> M S A) : M S A :=
  fun m => match c m with
           | (inr a, m') => (inr a, m')
           | (inl e, m') => h e m'
           end.
Definition get {S A} (f : S -> A) : M S A := fun m => (inr (f m), m).
Definition modify {S} (f : S -> S) : M S unit := fun m => (inr tt, f m).
Definition lift {S A} (r : exn + A) : M S A := fun m => (r, m).

Notation "'let*' x ':=' c 'in' k" := (bind c (fun x => k))
  (at level 10, x name, c at level 100, k at level 200).
Notation "c '>>' k" := (bind c (fun _ => k))
  (at level 100, k at level 200, right associativity).

Definition when {S} (b : bool) (c : M S unit) : M S unit := if b then c else ret tt.

Definition log (l : level) (msg : string) : M frame unit := modify (emit (EvLog l msg)).

(** [l[0]] *)
Definition first (l : list pyval) : M frame pyval :=
  match l with
  | [] => raise IndexError
  | v :: _ => ret v
  end.

(** [d.get(k, [None])[0]] *)
Definition get_first (d : gmap string (list pyval)) (k : string) : M frame pyval :=
  first (default [PyNone] (d !! k)).

(** [int(v.split('-')[0])]: only a string has [split]. *)
Definition year_of (v : pyval) : M frame pyval :=
  match v with
  | PyStr s =>
      match py_int (before_dash s) with
      | Some z => ret (PyInt z)
      | None => raise ValueError
      end
  | _ => raise AttributeError
  end.

(** *** The temporary directory *)

(** [tempfile.NamedTemporaryFile(delete=False, ...)]: a new empty file. *)
Definition NamedTemporaryFile : M frame path :=
  let* p := get (fun m => fresh (dom (fs (mem m)))) in
  modify (set_fs (insert p "")) >>
  modify (emit (EvCreate p)) >>
  ret p.

(** [f.write(chunk)] on the open file named [p] *)
Definition write (p : path) (chunk : string) : M frame unit :=
  modify (set_fs (alter (fun c => String.append c chunk) p)).

Definition os_path_exists (p : path) : M frame bool :=
  get (fun m => bool_decide (is_Some (fs (mem m) !! p))).

Definition os_unlink (p : path) : M frame unit :=
  let* there := os_path_exists p in
  if there then modify (set_fs (delete p)) >> modify (emit (EvUnlink p))
  else raise FileNotFoundError.

(** The bytes a reader finds under a name. *)
Definition read_file (p : path) : M frame string :=
  let* c := get (fun m => fs (mem m) !! p) in
  match c with
  | Some bytes => ret bytes
  | None => raise FileNotFoundError
  end.

(** ** [extract_metadata] *)

(** The dict [extract_metadata] returns, keys in the order they are written. *)
Abbreviation dict := (list (string * pyval)).

Fixpoint dict_get (k : string) (d : dict) : option pyval :=
  match d with
  | [] => None
  | (k', v) :: d' => if String.eqb k k' then Some v else dict_get k d'
  end.

Definition PLACEHOLDER : string := "https://via.placeholder.com/150".

Section Extraction.

Variable w : world.

(** [requests.get(url, stream=True)] *)
Definition get_url (url : string) : M frame response :=
  modify (emit (EvGet url)) >> lift (requests_get w url).

(** [for chunk in response.iter_content(...): temp_file.write(chunk)] *)
Fixpoint write_chunks (temp_file : path) (chunks : list string) : M frame unit :=
  match chunks with
  | [] => ret tt
  | chunk :: rest => write temp_file chunk >> write_chunks temp_file rest
  end.

(** The [with tempfile.NamedTemporaryFile(...)] block of the download: the
    file stays when the block is left, by its end or by an exception of the
    iteration. *)
Definition download (r : response) : M frame path :=
  let* temp_file := NamedTemporaryFile in
  write_chunks temp_file (iter_content r) >>
  match iter_error r with
  | Some e => raise e
  | None => ret temp_file
  end.

Definition mutagen_File (p : path) : M frame (option audio) :=
  modify (emit (EvFile p)) >> let* bytes := read_file p in lift (File w bytes).
Definition mutagen_ID3 (p : path) : M frame (gmap string string) :=
  modify (emit (EvID3 p)) >> let* bytes := read_file p in lift (ID3 w bytes).
Definition mutagen_EasyID3 (p : path) : M frame (gmap string (list pyval)) :=
  modify (emit (EvEasyID3 p)) >> let* bytes := read_file p in lift (EasyID3 w bytes).

(** The cover art of an MP3: the [try] around [ID3(temp_path)]. *)
Definition cover_art (temp_path : path) : M frame unit :=
  try_except
    (let* id3 := mutagen_ID3 temp_path in
     match id3 !! "APIC:" with
     | Some apic =>
         let* img_file := NamedTemporaryFile in
         write img_file apic >>
         modify (set_image_url (Some img_file))
     | None => ret tt
     end)
    (fun _ => log Warning "Failed to extract cover art").

(** The primary strategy: the [try] around [EasyID3(temp_path)]. *)
Definition primary (temp_path : path) : M frame unit :=
  try_except
    (let* easy := mutagen_EasyID3 temp_path in
     let* t := get_first easy "title" in
     modify (set_title t) >>
     let* a := get_first easy "artist" in
     modify (set_artist a) >>
     let* date := get_first easy "date" in
     when (truthy date)
       (let* y := year_of date in modify (set_year y)))
    (fun _ => log Warning "Failed to extract metadata using EasyID3").

(** [audio.tags.get(k, [None])[0]] *)
Definition tags_get_first (a : audio) (k : string) : M frame pyval :=
  modify (emit (EvFrame k)) >>
  match tags a with
  | None => raise AttributeError
  | Some d => get_first d k
  end.

(** The fallback to the raw frames, one [if] per field. *)
Definition fallback_title (a : audio) : M frame unit :=
  let* t := get title in
  when (negb (truthy t) && has_tags a)
    (let* v := tags_get_first a "TIT2" in modify (set_title v)).

Definition fallback_artist (a : audio) : M frame unit :=
  let* ar := get artist in
  when (negb (truthy ar) && has_tags a)
    (let* v := tags_get_first a "TPE1" in modify (set_artist v)).

Definition fallback_year (a : audio) : M frame unit :=
  let* y := get year in
  when (negb (truthy y) && has_tags a)
    (let* year_str := tags_get_first a "TDRC" in
     when (truthy year_str)
       (let* v := year_of year_str in modify (set_year v))).

Definition fallback (a : audio) : M frame unit :=
  fallback_title a >> fallback_artist a >> fallback_year a.

(** The cleanup of the success path and the dict that is returned. *)
Definition finish (temp_path : path) : M frame dict :=
  os_unlink temp_path >>
  let* img := get image_url in
  match img with
  | Some p => os_unlink p
  | None => ret tt
  end >>
  let* t := get title in
  let* ar := get artist in
  let* y := get year in
  ret [("title", py_or t (PyStr "Unknown Title"));
       ("singer", py_or ar (PyStr "Unknown Artist"));
       ("image_url", PyStr PLACEHOLDER);
       ("year", py_or y (PyInt (now_year w)))].

(** What follows [audio = File(temp_path)] when a format was recognised, up
    to the end of [if hasattr(audio, 'tags')]. *)
Definition tagged (temp_path : path) (a : audio) : M frame unit :=
  modify (set_title PyNone) >>
  modify (set_artist PyNone) >>
  modify (set_year PyNone) >>
  modify (set_image_url None) >>
  when (has_tags a)
    (when (is_MP3 a) (cover_art temp_path) >> primary temp_path).

Definition read_tags (temp_path : path) (a : audio) : M frame unit :=
  tagged temp_path a >> fallback a.

(** The handler of the inner [try]. *)
Definition processing_failed (temp_path : path) : M frame (option dict) :=
  log Error "Error processing audio file" >>
  let* there := os_path_exists temp_path in
  when there (os_unlink temp_path) >>
  ret None.

(** The inner [try]. *)
Definition process (temp_path : path) : M frame (option dict) :=
  try_except
    (let* audio := mutagen_File temp_path in
     match audio with
     | None => log Error "Failed to read audio file with mutagen" >> ret None
     | Some a =>
         read_tags temp_path a >>
         let* d := finish temp_path in
         ret (Some d)
     end)
    (fun _ => processing_failed temp_path).

(** The outer [try] and its handler. *)
Definition extract_metadata_body (url : string) : M frame (option dict) :=
  try_except
    (let* r := get_url url in
     if negb (ok r) then log Error "Failed to download file" >> ret None
     else
       let* temp_path := download r in
       process temp_path)
    (fun _ => log Error "Error downloading file" >> ret None).

(** The call, from the store it finds to the store it leaves.  The last
    case is never taken: the outer handler catches every exception. *)
Definition extract_metadata (url : string) (s : store) : option dict * store :=
  match extract_metadata_body url (enter s) with
  | (inr r, m) => (r, mem m)
  | (inl _, m) => (None, mem m)
  end.

End Extraction.

(** ** The route [POST /extract_metadata] *)

(** What [request.get_json()] can parse to.  Numbers are the integers; an
    object is the list of its members, each key once. *)
#[local] Unset Elimination Schemes.
Inductive json : Type :=
  | JNull
  | JBool (b : bool)
  | JNum (z : Z)
  | JStr (s : string)
  | JList (l : list json)
  | JObj (o : list (string * json)).
#[local] Set Elimination Schemes.

Fixpoint member (k : string) (o : list (string * json)) : option json :=
  match o with
  | [] => None
  | (k', v) :: o' => if String.eqb k k' then Some v else member k o'
  end.

Arguments member : simpl never.

(** [bool(data)] *)
Definition json_truthy (data : json) : bool :=
  match data with
  | JNull => false
  | JBool b => b
  | JNum z => negb (Z.eqb z 0)
  | JStr s => negb (String.eqb s "")
  | JList l => match l with [] => false | _ => true end
  | JObj o => match o with [] => false | _ => true end
  end.

(** [k in data]: a key of a dict, an element of a list, a part of a string;
    the other values are not containers. *)
Definition json_in (k : string) (data : json) : exn + bool :=
  match data with
  | JObj o => inr (bool_decide (is_Some (member k o)))
  | JList l => inr (existsb (fun x => match x with JStr s => String.eqb s k | _ => false end) l)
  | JStr s => inr (contains k s)
  | _ => inl TypeError
  end.

(** [data[k]] with a string [k]: only a dict is indexed by one. *)
Definition json_item (data : json) (k : string) : exn + json :=
  match data with
  | JObj o => match member k o with Some v => inr v | None => inl KeyError end
  | _ => inl TypeError
  end.

(** [url.startswith(('http://', 'https://'))]: only a string has the method. *)
Definition has_scheme (url : json) : exn + bool :=
  match url with
  | JStr u => inr (startswith "http://" u || startswith "https://" u)
  | _ => inl AttributeError
  end.

(** [jsonify(metadata)]: an object that is neither a string, a number nor
    [None] cannot be serialised. *)
Fixpoint jsonify_items (d : dict) : exn + list (string * json) :=
  match d with
  | [] => inr []
  | (k, v) :: d' =>
      match v, jsonify_items d' with
      | PyObj, _ => inl TypeError
      | _, inl e => inl e
      | PyNone, inr o => inr ((k, JNull) :: o)
      | PyStr s, inr o => inr ((k, JStr s) :: o)
      | PyInt z, inr o => inr ((k, JNum z) :: o)
      end
  end.

Definition jsonify (d : dict) : exn + json :=
  match jsonify_items d with
  | inl e => inl e
  | inr o => inr (JObj o)
  end.

(** [jsonify({'error': msg}), code] *)
Definition error_response (msg : string) (code : Z) : json * Z :=
  (JObj [("error", JStr msg)], code).

Section Route.

Variable w : world.

Definition app_log (l : level) (msg : string) : M store unit :=
  modify (fun s => Store (fs s) (EvLog l msg :: trace s)).

Definition call_extract_metadata (url : string) : M store (option dict) :=
  fun s => let (r, s') := extract_metadata w url s in (inr r, s').

(** The [try] of the route and its handler; [req] is what
    [request.get_json()] does on the request. *)
Definition handle_extract_metadata_body (req : exn + json) : M store (json * Z) :=
  try_except
    (let* data := lift req in
     let* no_url :=
       if negb (json_truthy data) then ret true
       else let* there := lift (json_in "url" data) in ret (negb there) in
     if no_url then
       app_log Error "No URL provided in request" >>
       ret (error_response "URL is required" 400)
     else
       let* url := lift (json_item data "url") in
       let* good := lift (has_scheme url) in
       if negb good then
         app_log Error "Invalid URL format" >>
         ret (error_response "Invalid URL format" 400)
       else
         let* metadata :=
           match url with
           | JStr u => call_extract_metadata u
           | _ => raise AttributeError
           end in
         match metadata with
         | None =>
             app_log Error "Failed to extract metadata" >>
             ret (error_response "Failed to extract metadata from the audio file" 500)
         | Some d =>
             let* body := lift (jsonify d) in
             ret (body, 200)
         end)
    (fun _ =>
       app_log Error "Unexpected error in extract_metadata route" >>
       ret (error_response "An unexpected error occurred" 500)).

(** The route, from the store it finds to the response and the store it
    leaves.  The last case is never taken. *)
Definition handle_extract_metadata (req : exn + json) (s : store) : (json * Z) * store :=
  match handle_extract_metadata_body req s with
  | (inr r, s') => (r, s')
  | (inl _, s') => (error_response "An unexpected error occurred" 500, s')
  end.

End Route.


(** ** The steps in closed form

    What each step of [extract_metadata] leaves, written as a function of
    the frame it starts from; the lemmas below prove each equal to the step
    it describes. *)

(** The bytes of a response body: its chunks, one after the other. *)
Definition payload (r : response) : string := foldr String.append "" (iter_content r).

(** The value a raw frame lookup yields, when the lookup returns. *)
Definition raw_frame (a : audio) (k : string) : option pyval :=
  match tags a with
  | Some tg => head (default [PyNone] (tg !! k))
  | None => None
  end.

(** The exception of a raw frame lookup that does not return: [audio.tags]
    is [None], or the frame holds no value. *)
Definition lookup_error (a : audio) : exn :=
  match tags a with
  | Some _ => IndexError
  | None => AttributeError
  end.

(** The year [int(v.split('-')[0])] yields, when it yields one. *)
Definition parsed_year (v : pyval) : option Z :=
  match v with
  | PyStr s => py_int (before_dash s)
  | _ => None
  end.

(** The first value of a key of the [EasyID3] mapping, [None] for a key it
    does not have, nothing when the key holds an empty list. *)
Definition easy_first (easy : gmap string (list pyval)) (k : string) : option pyval :=
  head (default [PyNone] (easy !! k)).

Definition warn_cover : frame -> frame := emit (EvLog Warning "Failed to extract cover art").
Definition warn_easy : frame -> frame :=
  emit (EvLog Warning "Failed to extract metadata using EasyID3").

(** What the primary strategy does with the mapping it has read. *)
Definition primary_on (easy : gmap string (list pyval)) (m : frame) : frame :=
  match easy_first easy "title" with
  | None => warn_easy m
  | Some t =>
      match easy_first easy "artist" with
      | None => warn_easy (set_title t m)
      | Some ar =>
          let m' := set_artist ar (set_title t m) in
          match easy_first easy "date" with
          | None => warn_easy m'
          | Some date =>
              if truthy date then
                match parsed_year date with
                | Some z => set_year (PyInt z) m'
                | None => warn_easy m'
                end
              else m'
          end
      end
  end.

Section ClosedForms.

Variable w : world.

(** What the cover art step does with the bytes of the file. *)
Definition cover_on (p : path) (bytes : string) (m : frame) : frame :=
  match ID3 w bytes with
  | inl _ => warn_cover (emit (EvID3 p) m)
  | inr id3 =>
      match id3 !! "APIC:" with
      | Some apic =>
          let q := fresh (dom (fs (mem m))) in
          set_image_url (Some q)
            (emit (EvCreate q) (set_fs (insert q apic) (emit (EvID3 p) m)))
      | None => emit (EvID3 p) m
      end
  end.

Definition easy_on (p : path) (bytes : string) (m : frame) : frame :=
  match EasyID3 w bytes with
  | inl _ => warn_easy (emit (EvEasyID3 p) m)
  | inr easy => primary_on easy (emit (EvEasyID3 p) m)
  end.

Definition clear (m : frame) : frame := Frame (mem m) PyNone PyNone PyNone None.

Definition tagged_on (p : path) (a : audio) (bytes : string) (m : frame) : frame :=
  if has_tags a then
    easy_on p bytes (if is_MP3 a then cover_on p bytes (clear m) else clear m)
  else clear m.

End ClosedForms.

(** The name the downloaded file gets, and the frame in which
    [File(temp_path)] is called: the response body is in the new file, and
    nothing else has changed. *)
Definition temp_path_of (s : store) : path := fresh (dom (fs s)).

Definition downloaded (url : string) (r : response) (s : store) : frame :=
  emit (EvCreate (temp_path_of s))
    (set_fs (insert (temp_path_of s) (payload r)) (emit (EvGet url) (enter s))).


(** ** What a call that returns a dict went through *)

(** The frame the primary strategy leaves, the one the fallback starts from. *)
Definition after_primary (w : world) (url : string) (s : store) (r : response) (a : audio) : frame :=
  tagged_on w (temp_path_of s) a (payload r)
    (emit (EvFile (temp_path_of s)) (downloaded url r s)).

(** The year is [None] or an integer wherever it is read. *)
Definition year_like (v : pyval) : Prop := v = PyNone \/ exists z, v = PyInt z.

(** What the raw frame [k] gives to the fallback: nothing when the object has
    no [tags] attribute. *)
Definition fallback_value (a : audio) (k : string) : option pyval :=
  if has_tags a then raw_frame a k else None.

(** The year the raw TDRC frame gives to the fallback. *)
Definition fallback_year_value (a : audio) : option pyval :=
  match fallback_value a "TDRC" with
  | Some v => PyInt <$> parsed_year v
  | None => None
  end.

(** The rule of one field: a true value of the primary strategy is the
    result and the raw frame is not looked up; without one, a true value of
    the fallback is the result. *)
Definition field_rule (primary_value : pyval) (consulted : Prop)
    (from_fallback : option pyval) (result : option pyval) : Prop :=
  if truthy primary_value then result = Some primary_value /\ ~ consulted
  else forall v, from_fallback = Some v -> truthy v = true -> result = Some v.


(** ** What a request asks for *)

(** The url a request carries: the string under the key [url] of a JSON
    object, when it starts with one of the two schemes. *)
Definition usable_url (req : exn + json) : option string :=
  match req with
  | inr (JObj o) =>
      match member "url" o with
      | Some (JStr u) =>
          if startswith "http://" u || startswith "https://" u then Some u else None
      | _ => None
      end
  | _ => None
  end.

(** The url field of a body, when the body is an object that has one. *)
Definition url_field (data : json) : option json :=
  match data with
  | JObj o => member "url" o
  | _ => None
  end.

Definition logged (l : level) (msg : string) (s : store) : store :=
  Store (fs s) (EvLog l msg :: trace s).

(** How a request that carries no usable url is answered: the status, the
    message of the response and the line of the error log. *)
Record refusal : Type := Refusal {
  status : Z;
  message : string;
  note : string
}.

Definition url_required : refusal :=
  Refusal 400 "URL is required" "No URL provided in request".
Definition invalid_url : refusal :=
  Refusal 400 "Invalid URL format" "Invalid URL format".
Definition unexpected_error : refusal :=
  Refusal 500 "An unexpected error occurred" "Unexpected error in extract_metadata route".

(** The answer by the shape of the request.  400: a body that is not a true
    value (null, false, 0, an empty string, list or object), an object
    without the key url or whose url is a string (one without the schemes,
    the request being without a usable url), a string or a list in which
    "url" does not occur.  500, from the handler of the route: a request
    [get_json] raises on, a body that is true or a number other than 0, a
    string or a list in which "url" occurs, an object whose url is no
    string. *)
Definition refused (req : exn + json) : refusal :=
  match req with
  | inl _ => unexpected_error
  | inr data =>
      if json_truthy data then
        match data with
        | JObj o =>
            match member "url" o with
            | None => url_required
            | Some (JStr _) => invalid_url
            | Some _ => unexpected_error
            end
        | JStr s => if contains "url" s then unexpected_error else url_required
        | JList l =>
            if existsb (fun x => match x with JStr s => String.eqb s "url" | _ => false end) l
            then unexpected_error else url_required
        | _ => unexpected_error
        end
      else url_required
  end.

(** ** Sample worlds

    Servers and files to run the functions on. *)

Definition empty_store : store := Store ∅ [].

(** A server that answers every url with [status] and the chunks given. *)
Definition serve (status : Z) (chunks : list string) : string -> exn + response :=
  fun _ => inr (Response status chunks None).

(** No such file on the server. *)
Definition not_found : world := {|
  requests_get := serve 404 ["Not Found"];
  File := fun _ => inl MutagenError;
  ID3 := fun _ => inl MutagenError;
  EasyID3 := fun _ => inl MutagenError;
  now_year := 2024
|}.

(** A text file: mutagen finds no MPEG frame in it and raises. *)
Definition text_file : world := {|
  requests_get := serve 200 ["hello, "; "world"];
  File := fun _ => inl MutagenError;
  ID3 := fun _ => inl MutagenError;
  EasyID3 := fun _ => inl MutagenError;
  now_year := 2024
|}.

(** An MP3 with complete tags and a cover picture. *)
Definition complete_mp3 : world := {|
  requests_get := serve 200 ["ID3"; "frames"];
  File := fun _ => inr (Some (Audio true true
            (Some {[ "TIT2" := [PyStr "Test Song"]; "TPE1" := [PyStr "Test Artist"];
                     "TDRC" := [PyObj] ]})));
  ID3 := fun _ => inr {[ "APIC:" := "jpeg" ]};
  EasyID3 := fun _ => inr {[ "title" := [PyStr "Test Song"]; "artist" := [PyStr "Test Artist"];
                             "date" := [PyStr "2020-05-01"] ]};
  now_year := 2024
|}.

(** An MP3 with a cover picture and a title, whose TDRC frame holds a time
    stamp without a year: [EasyID3] gives the empty string for its date, the
    raw frame gives the time stamp object. *)
Definition cover_and_odd_date : world := {|
  requests_get := serve 200 ["ID3"; "frames"];
  File := fun _ => inr (Some (Audio true true
            (Some {[ "TIT2" := [PyStr "Test Song"]; "TDRC" := [PyObj] ]})));
  ID3 := fun _ => inr {[ "APIC:" := "jpeg" ]};
  EasyID3 := fun _ => inr {[ "title" := [PyStr "Test Song"]; "date" := [PyStr ""] ]};
  now_year := 2024
|}.

(** An MP3 without any tag: [audio.tags] is [None] and the two ID3 readers
    find no header. *)
Definition untagged_mp3 : world := {|
  requests_get := serve 200 ["mpeg frames"];
  File := fun _ => inr (Some (Audio true true None));
  ID3 := fun _ => inl MutagenError;
  EasyID3 := fun _ => inl MutagenError;
  now_year := 2024
|}.

(** A file that is not an MP3 and has no ID3 header, whose own tags hold no
    frame the fallback asks for. *)
Definition plain_audio : world := {|
  requests_get := serve 200 ["OggS"];
  File := fun _ => inr (Some (Audio true false (Some ∅)));
  ID3 := fun _ => inl MutagenError;
  EasyID3 := fun _ => inl MutagenError;
  now_year := 2024
|}.

(** A file whose date is a word: once where [EasyID3] reads it, once where
    only the raw TDRC entry of the tags holds it. *)
Definition word_date_easy : world := {|
  requests_get := serve 200 ["OggS"; "TAG"];
  File := fun _ => inr (Some (Audio true false (Some ∅)));
  ID3 := fun _ => inl MutagenError;
  EasyID3 := fun _ => inr {[ "title" := [PyStr "Test Song"]; "date" := [PyStr "unknown"] ]};
  now_year := 2024
|}.

Definition word_date_raw : world := {|
  requests_get := serve 200 ["OggS"];
  File := fun _ => inr (Some (Audio true false
            (Some {[ "TIT2" := [PyStr "Test Song"]; "TDRC" := [PyStr "unknown"] ]})));
  ID3 := fun _ => inl MutagenError;
  EasyID3 := fun _ => inl MutagenError;
  now_year := 2024
|}.

(** A file whose artist only the raw TPE1 frame gives. *)
Definition raw_artist_only : world := {|
  requests_get := serve 200 ["OggS"; "TAG"];
  File := fun _ => inr (Some (Audio true false
            (Some {[ "TPE1" := [PyStr "Raw Artist"] ]})));
  ID3 := fun _ => inl MutagenError;
  EasyID3 := fun _ => inr {[ "title" := [PyStr "Test Song"]; "artist" := [PyStr ""] ]};
  now_year := 2024
|}.

(** A file without an ID3 header whose own tags hold an artist under TPE1
    and a word under TDRC. *)
Definition raw_artist_word_date : world := {|
  requests_get := serve 200 ["OggS"];
  File := fun _ => inr (Some (Audio true false
            (Some {[ "TPE1" := [PyStr "Raw Artist"]; "TDRC" := [PyStr "unknown"] ]})));
  ID3 := fun _ => inl MutagenError;
  EasyID3 := fun _ => inl MutagenError;
  now_year := 2024
|}.

(** The MP3 with complete tags, served with the status 304. *)
Definition not_modified : world := {|
  requests_get := serve 304 ["ID3"; "frames"];
  File := File complete_mp3;
  ID3 := ID3 complete_mp3;
  EasyID3 := EasyID3 complete_mp3;
  now_year := 2024
|}.

(** ** Empty tags and absent tags *)

(** A tag whose first value is the empty string. *)
Definition blank (l : list pyval) : bool :=
  match l with
  | PyStr EmptyString :: _ => true
  | _ => false
  end.

(** The mapping without its blank tags. *)
Definition drop_blank (d : gmap string (list pyval)) : gmap string (list pyval) :=
  filter (fun kv => blank kv.2 = false) d.

(** The world in which every blank tag is absent: from what [EasyID3] reads
    and from [audio.tags]. *)
Definition without_blanks (w : world) : world := {|
  requests_get := requests_get w;
  File := fun bytes =>
    match File w bytes with
    | inr (Some a) => inr (Some (Audio (has_tags a) (is_MP3 a) (drop_blank <$> tags a)))
    | other => other
    end;
  ID3 := ID3 w;
  EasyID3 := fun bytes =>
    match EasyID3 w bytes with
    | inr easy => inr (drop_blank easy)
    | other => other
    end;
  now_year := now_year w
|}.

(** Two values a condition cannot tell apart. *)
Definition alike (v v' : pyval) : Prop :=
  v = v' \/ (truthy v = false /\ truthy v' = false).

(** Two frames with the same store whose variables are alike. *)
Definition sim (m m' : frame) : Prop :=
  mem m = mem m' /\ image_url m = image_url m' /\
  alike (title m) (title m') /\ alike (artist m) (artist m') /\ alike (year m) (year m').

(** Two runs that end alike: the same exception or the same value, in
    frames that are alike. *)
Definition ends_alike {A} (x y : (exn + A) * frame) : Prop :=
  fst x = fst y /\ sim (snd x) (snd y).

(** [None] for the empty string. *)
Definition unblank (v : pyval) : pyval :=
  match v with
  | PyStr EmptyString => PyNone
  | _ => v
  end.

(** The dict [extract_metadata] builds from the variables of a frame. *)
Definition result_dict (w : world) (m : frame) : dict :=
  [("title", py_or (title m) (PyStr "Unknown Title"));
   ("singer", py_or (artist m) (PyStr "Unknown Artist"));
   ("image_url", PyStr PLACEHOLDER);
   ("year", py_or (year m) (PyInt (now_year w)))].

(** ** Files across a step *)

(** A step that leaves the files and the name of the cover file as they
    were. *)
Definition keeps (m m' : frame) : Prop :=
  fs (mem m') = fs (mem m) /\ image_url m' = image_url m.

(** The name the cover file gets when the cover is written right after the
    download. *)
Definition cover_path_of (s : store) (r : response) : path :=
  fresh (dom (<[temp_path_of s := payload r]> (fs s))).

(** ** More of the call: what decides its result *)

(** The three variables the dict is built from. *)
Definition vars (m : frame) : pyval * pyval * pyval := (title m, artist m, year m).

(** The world with another reader of ID3 frames. *)
Definition with_ID3 (f : string -> exn + gmap string string) (w : world) : world :=
  World (requests_get w) (File w) f (EasyID3 w) (now_year w).

(** What [extract_metadata] returns, read off the collaborators: a dict
    exactly when the download went through, a format was recognised and the
    fallback returned. *)
Definition outcome (w : world) (url : string) (s : store) : option dict :=
  match requests_get w url with
  | inr r =>
      if ok r then
        match iter_error r, File w (payload r) with
        | None, inr (Some a) =>
            match fallback a (after_primary w url s r a) with
            | (inr _, m2) => Some (result_dict w m2)
            | (inl _, _) => None
            end
        | _, _ => None
        end
      else None
  | inl _ => None
  end.

(** A string without a dash. *)
Fixpoint no_dash (s : string) : bool :=
  match s with
  | EmptyString => true
  | String c s' => negb (Ascii.eqb c "-") && no_dash s'
  end.

(** A year that is [None] or an integer that is not negative. *)
Definition year_ok (v : pyval) : Prop := v = PyNone \/ exists z, v = PyInt z /\ 0 <= z.

(** ** More sample worlds *)

(** A server that cannot be reached. *)
Definition unreachable : world := {|
  requests_get := fun _ => inl RequestException;
  File := fun _ => inr None;
  ID3 := fun _ => inl MutagenError;
  EasyID3 := fun _ => inl MutagenError;
  now_year := 2024
|}.

(** A connection that breaks after two chunks. *)
Definition broken_stream : world := {|
  requests_get := fun _ => inr (Response 200 ["ID3"; "fra"] (Some RequestException));
  File := fun _ => inr None;
  ID3 := fun _ => inl MutagenError;
  EasyID3 := fun _ => inl MutagenError;
  now_year := 2024
|}.

(** A file mutagen raises on. *)
Definition corrupt_file : world := {|
  requests_get := serve 200 ["ID3"; "garbage"];
  File := fun _ => inl MutagenError;
  ID3 := fun _ => inl MutagenError;
  EasyID3 := fun _ => inl MutagenError;
  now_year := 2024
|}.

(** A file whose EasyID3 mapping has a title, an empty list for the artist
    and no date. *)
Definition artist_list_empty : world := {|
  requests_get := serve 200 ["OggS"; "TAG"];
  File := fun _ => inr (Some (Audio true false (Some ∅)));
  ID3 := fun _ => inl MutagenError;
  EasyID3 := fun _ => inr {[ "title" := [PyStr "Test Song"]; "artist" := [] ]};
  now_year := 2024
|}.

(** A step that only adds to the trace, and adds no request. *)
Definition quiet (m m' : frame) : Prop :=
  exists evs, trace (mem m') = evs ++ trace (mem m) /\ forall u, ~ In (EvGet u) evs.

(** * The catalog routes

    [get_songs], [add_song], [delete_song] and [edit_song] over the table of
    the model [Song].  A request body is a value of [json]; what the database
    engine decides (the order of a query, the id and the stored value of a new
    row, the exception of a commit) is an [engine] the routes are
    parameterised by.  Every request has a session of its own, so a rollback
    leaves the committed table. *)

Module Catalog.

(** A row of [Song] without its [created_at], which no route reads.  The
    four text columns hold whatever value the request gave or the engine
    stored; [year] has been through [int]. *)
Record song : Type := Song {
  title : json;
  singer : json;
  song_url : json;
  image_url : json;
  year : Z
}.

(** The exceptions a route body can end with: those of Python and of
    [get_json], the 404 of [get_or_404], an error of the database. *)
Inductive raised : Type :=
  | Python (e : exn)
  | NotFound
  | DatabaseError.

(** The committed table, by id, and the messages of [app.logger.error],
    newest first. *)
Record app_state : Type := AppState {
  songs : gmap N song;
  error_log : list string
}.

Record engine : Type := Engine {
  (** [Song.query.all()] on a table *)
  all_rows : gmap N song -> list (N * song);
  (** the commit of a new row: its id and what is stored, or an exception *)
  insert_row : gmap N song -> song -> raised + (N * song);
  (** the commit of a row whose attributes were assigned, from the row as it
      was loaded: what is stored, or an exception *)
  update_row : song -> song -> raised + song
}.

Definition from_python {A} (r : exn + A) : raised + A :=
  match r with
  | inl e => inl (Python e)
  | inr a => inr a
  end.

#[export] Instance raised_ret : MRet (sum raised) := fun _ a => inr a.
#[export] Instance raised_bind : MBind (sum raised) :=
  fun _ _ f m => match m with inl e => inl e | inr a => f a end.

Definition log_error (msg : string) (c : app_state) : app_state :=
  AppState (songs c) (msg :: error_log c).

Definition set_songs (t : gmap N song) (c : app_state) : app_state :=
  AppState t (error_log c).

(** The dict a song is listed as. *)
Definition song_json (row : N * song) : json :=
  JObj [("id", JNum (Z.of_N row.1)); ("title", title row.2); ("singer", singer row.2);
        ("song_url", song_url row.2); ("image_url", image_url row.2);
        ("year", JNum (year row.2))].

(** [int(v)] on a value of the body: a string is parsed, a number is itself,
    a boolean is 0 or 1, anything else is a [TypeError]. *)
Definition json_int (v : json) : raised + Z :=
  match v with
  | JStr s => match py_int s with Some z => inr z | None => inl (Python ValueError) end
  | JNum z => inr z
  | JBool b => inr (if b then 1 else 0)
  | _ => inl (Python TypeError)
  end.

Definition required_fields : list string :=
  ["title"; "singer"; "song_url"; "image_url"; "year"].

(** [for field in fields: if field not in data: return ...]: the field the
    loop returns at, if it does. *)
Fixpoint first_missing (data : json) (fields : list string) : raised + option string :=
  match fields with
  | [] => inr None
  | field :: rest =>
      there ← from_python (json_in field data);
      if negb there then inr (Some field) else first_missing data rest
  end.

(** [Song.query.get_or_404(song_id)]: the 404 is an exception. *)
Definition get_or_404 (song_id : N) (c : app_state) : raised + song :=
  match songs c !! song_id with
  | Some x => inr x
  | None => inl NotFound
  end.

Definition with_title (v : json) (x : song) : raised + song :=
  inr (Song v (singer x) (song_url x) (image_url x) (year x)).
Definition with_singer (v : json) (x : song) : raised + song :=
  inr (Song (title x) v (song_url x) (image_url x) (year x)).
Definition with_song_url (v : json) (x : song) : raised + song :=
  inr (Song (title x) (singer x) v (image_url x) (year x)).
Definition with_image_url (v : json) (x : song) : raised + song :=
  inr (Song (title x) (singer x) (song_url x) v (year x)).
(** [song.year = int(data['year'])] *)
Definition with_year (v : json) (x : song) : raised + song :=
  y ← json_int v; inr (Song (title x) (singer x) (song_url x) (image_url x) y).

(** [if key in data: song.attr = ... data[key] ...], on the row and the mark
    that an attribute of it has been assigned. *)
Definition assign (data : json) (key : string) (set : json -> song -> raised + song)
    (x : song * bool) : raised + (song * bool) :=
  there ← from_python (json_in key data);
  match there with
  | true =>
      v ← from_python (json_item data key);
      x' ← set v x.1;
      inr (x', true)
  | false => inr x
  end.

Section Routes.

Variable db : engine.

(** [GET /api/songs] *)
Definition get_songs (c : app_state) : (json * Z) * app_state :=
  ((JList (map song_json (all_rows db (songs c))), 200), c).

(** The [try] of [add_song]: the response and the state it leaves, or the
    exception it ends with. *)
Definition add_song_try (req : exn + json) (c : app_state) :
    raised + ((json * Z) * app_state) :=
  data ← from_python req;
  if negb (json_truthy data) then inr (error_response "No data provided" 400, c)
  else
    missing ← first_missing data required_fields;
    match missing with
    | Some field =>
        inr (error_response (String.append "Missing required field: " field) 400, c)
    | None =>
        t ← from_python (json_item data "title");
        si ← from_python (json_item data "singer");
        su ← from_python (json_item data "song_url");
        iu ← from_python (json_item data "image_url");
        yv ← from_python (json_item data "year");
        y ← json_int yv;
        new ← insert_row db (songs c) (Song t si su iu y);
        inr ((JObj [("message", JStr "Song added successfully");
                    ("id", JNum (Z.of_N new.1))], 201),
             set_songs (<[new.1 := new.2]> (songs c)) c)
    end.

(** [POST /api/songs]; the handler rolls back, logs and answers 500. *)
Definition add_song (req : exn + json) (c : app_state) : (json * Z) * app_state :=
  match add_song_try req c with
  | inr r => r
  | inl _ => (error_response "Failed to add song" 500, log_error "Error adding song" c)
  end.

Definition delete_song_try (song_id : N) (c : app_state) :
    raised + ((json * Z) * app_state) :=
  _ ← get_or_404 song_id c;
  inr ((JObj [("message", JStr "Song deleted successfully")], 200),
       set_songs (delete song_id (songs c)) c).

(** [DELETE /api/songs/<int:song_id>] *)
Definition delete_song (song_id : N) (c : app_state) : (json * Z) * app_state :=
  match delete_song_try song_id c with
  | inr r => r
  | inl _ => (error_response "Failed to delete song" 500, log_error "Error deleting song" c)
  end.

(** The five [if ... in data] of [edit_song], in their order. *)
Definition assign_all (data : json) (old : song) : raised + (song * bool) :=
  x ← assign data "title" with_title (old, false);
  x ← assign data "singer" with_singer x;
  x ← assign data "song_url" with_song_url x;
  x ← assign data "image_url" with_image_url x;
  assign data "year" with_year x.

(** [db.session.commit()] after the assignments: a row no attribute of
    which was assigned is not written. *)
Definition commit_update (old : song) (x : song * bool) : raised + song :=
  if x.2 then update_row db old x.1 else inr old.

Definition edit_song_try (song_id : N) (req : exn + json) (c : app_state) :
    raised + ((json * Z) * app_state) :=
  old ← get_or_404 song_id c;
  data ← from_python req;
  if negb (json_truthy data) then inr (error_response "No data provided" 400, c)
  else
    x ← assign_all data old;
    stored ← commit_update old x;
    inr ((JObj [("message", JStr "Song updated successfully")], 200),
         set_songs (<[song_id := stored]> (songs c)) c).

(** [PUT /api/songs/<int:song_id>] *)
Definition edit_song (song_id : N) (req : exn + json) (c : app_state) :
    (json * Z) * app_state :=
  match edit_song_try song_id req c with
  | inr r => r
  | inl _ => (error_response "Failed to update song" 500, log_error "Error updating song" c)
  end.

End Routes.

(** ** What is asked of an engine *)

(** The id of a new row is one no row has. *)
Definition primary_key (db : engine) : Prop :=
  forall t x id y, insert_row db t x = inr (id, y) -> t !! id = None.

(** A query gives every row once, in an order of its own. *)
Definition lists_rows (db : engine) : Prop :=
  forall t, all_rows db t ≡ₚ map_to_list t.

(** ** What a body asks for *)

(** The members of an object body; a body that is no object has none. *)
Definition field (data : json) (key : string) : option json :=
  match data with
  | JObj o => member key o
  | _ => None
  end.

Definition has_field (data : json) (key : string) : bool :=
  match field data key with
  | Some _ => true
  | None => false
  end.

(** The body names a column at least: an edit that goes through then asks
    the engine. *)
Definition touched (data : json) : bool := existsb (has_field data) required_fields.

(** A column after an edit that goes through: the member of the body when
    it has one under the key, the column as it was otherwise. *)
Definition edited (data : json) (key : string) (was : json) : json :=
  default was (field data key).

(** ** A sample engine

    Rows are numbered from 1 upwards; a row whose text columns are strings
    is stored as it is, any other is refused. *)

Definition next_id (t : gmap N song) : N :=
  N.succ (foldr N.max 0%N (map fst (map_to_list t))).

Definition is_text (v : json) : bool :=
  match v with
  | JStr _ => true
  | _ => false
  end.

Definition storable (x : song) : bool :=
  is_text (title x) && is_text (singer x) && is_text (song_url x) && is_text (image_url x).

Definition plain_engine : engine := {|
  all_rows := map_to_list;
  insert_row := fun t x => if storable x then inr (next_id t, x) else inl DatabaseError;
  update_row := fun _ x => if storable x then inr x else inl DatabaseError
|}.

Definition no_songs : app_state := AppState ∅ [].

Definition test_song : song :=
  Song (JStr "Test Song") (JStr "Test Artist") (JStr "http://example.org/a.mp3")
       (JStr PLACEHOLDER) 2020.

Definition test_body : json :=
  JObj [("title", JStr "Test Song"); ("singer", JStr "Test Artist");
        ("song_url", JStr "http://example.org/a.mp3"); ("image_url", JStr PLACEHOLDER);
        ("year", JStr "2020")].

Definition one_song : app_state := AppState {[ 1%N := test_song ]} [].

Definition other_song : song :=
  Song (JStr "Another Song") (JStr "Test Artist") (JStr "http://example.org/b.mp3")
       (JStr PLACEHOLDER) 1999.

Definition two_songs : app_state :=
  AppState {[ 1%N := test_song; 2%N := other_song ]} [].

End Catalog.

(** * Properties *)

Example py_int_year : py_int (before_dash "2020-05-01") = Some 2020.
Proof. reflexivity. Qed.

Example py_int_words : py_int (before_dash "May 2020") = None.
Proof. reflexivity. Qed.

Example py_int_spaces : py_int " 1_999 " = Some 1999 /\ py_int "" = None /\ py_int "19__99" = None.
Proof. repeat split; reflexivity. Qed.

(** The white space [int] drops: a tab and a no-break space are, the file
    separator 28 is not. *)
Example py_int_white_space :
  py_int (String (ascii_of_nat 9) (String "5" (String (ascii_of_nat 160) ""))) = Some 5 /\
  py_int (String (ascii_of_nat 28) "5") = None.
Proof. split; vm_compute; reflexivity. Qed.

Example complete_tags :
  fst (extract_metadata complete_mp3 "http://example.org/a.mp3" empty_store) =
  Some [("title", PyStr "Test Song"); ("singer", PyStr "Test Artist");
        ("image_url", PyStr PLACEHOLDER); ("year", PyInt 2020)].
Proof. vm_compute. reflexivity. Qed.

Example no_frames :
  fst (extract_metadata plain_audio "http://example.org/a.ogg" empty_store) =
  Some [("title", PyStr "Unknown Title"); ("singer", PyStr "Unknown Artist");
        ("image_url", PyStr PLACEHOLDER); ("year", PyInt 2024)].
Proof. vm_compute. reflexivity. Qed.

Example served_as_json :
  fst (handle_extract_metadata complete_mp3
         (inr (JObj [("url", JStr "http://example.org/a.mp3")])) empty_store) =
  (JObj [("title", JStr "Test Song"); ("singer", JStr "Test Artist");
         ("image_url", JStr PLACEHOLDER); ("year", JNum 2020)], 200).
Proof. vm_compute. reflexivity. Qed.

(** ** The steps of the pipeline, one equation each *)

Create HintDb mon discriminated.
#[local] Hint Unfold ret raise bind try_except get modify lift when log first get_first
  NamedTemporaryFile write os_path_exists os_unlink read_file
  emit set_fs set_title set_artist set_year set_image_url enter : mon.

Ltac mrun := repeat autounfold with mon; simpl.

Lemma bind_inr {S A B} (c : M S A) (k : A -> M S B) m b m' :
  bind c k m = (inr b, m') -> exists a m1, c m = (inr a, m1) /\ k a m1 = (inr b, m').
Proof.
  unfold bind. destruct (c m) as [[e|a] m1]; [discriminate|]. eauto.
Qed.

Lemma append_empty_r (s : string) : String.append s "" = s.
Proof.
  induction s as [|c s IH]; [reflexivity|].
  change (String c (String.append s "") = String c s). now rewrite IH.
Qed.

Lemma append_assoc (a b c : string) :
  String.append (String.append a b) c = String.append a (String.append b c).
Proof.
  induction a as [|x a IH]; [reflexivity|].
  change (String x (String.append (String.append a b) c) =
          String x (String.append a (String.append b c))).
  now rewrite IH.
Qed.

Lemma fresh_free (m : gmap positive string) : m !! fresh (dom m) = None.
Proof. apply not_elem_of_dom, is_fresh. Qed.

Lemma alter_present (f : string -> string) (p : positive) (m : gmap positive string) c :
  m !! p = Some c -> alter f p m = <[p := f c]> m.
Proof.
  intros H. apply map_eq. intros i. rewrite lookup_alter, lookup_insert.
  destruct (decide (p = i)) as [->|]; [rewrite H|]; reflexivity.
Qed.

Lemma write_chunks_eq p chunks : forall m c,
  fs (mem m) !! p = Some c ->
  write_chunks p chunks m =
  (inr tt, set_fs (insert p (String.append c (foldr String.append "" chunks))) m).
Proof.
  induction chunks as [|chunk rest IH]; intros m c H.
  - simpl. rewrite append_empty_r. unfold ret, set_fs.
    rewrite insert_id by exact H. destruct m as [[] ]; reflexivity.
  - simpl. unfold bind at 1, write at 1, modify.
    rewrite (IH _ (String.append c chunk)).
    + unfold set_fs; simpl. rewrite (alter_present _ _ _ _ H), insert_insert_eq, append_assoc.
      reflexivity.
    + unfold set_fs; simpl. rewrite (alter_present _ _ _ _ H). apply lookup_insert_eq.
Qed.

Lemma os_unlink_eq p m :
  os_unlink p m =
  if bool_decide (is_Some (fs (mem m) !! p))
  then (inr tt, emit (EvUnlink p) (set_fs (delete p) m))
  else (inl FileNotFoundError, m).
Proof. mrun. destruct (bool_decide _); reflexivity. Qed.

Lemma os_unlink_present p m c :
  fs (mem m) !! p = Some c ->
  os_unlink p m = (inr tt, emit (EvUnlink p) (set_fs (delete p) m)).
Proof.
  intros H. rewrite os_unlink_eq, bool_decide_eq_true_2; [reflexivity|]. rewrite H; eauto.
Qed.

Section Steps.

Variable w : world.

Lemma download_eq r m :
  download r m =
  (match iter_error r with
   | Some e => inl e
   | None => inr (fresh (dom (fs (mem m))))
   end,
   emit (EvCreate (fresh (dom (fs (mem m)))))
     (set_fs (insert (fresh (dom (fs (mem m)))) (payload r)) m)).
Proof.
  unfold download, bind at 1.
  assert (HN : NamedTemporaryFile m =
               (inr (fresh (dom (fs (mem m)))),
                emit (EvCreate (fresh (dom (fs (mem m)))))
                  (set_fs (insert (fresh (dom (fs (mem m)))) "") m)))
    by reflexivity.
  rewrite HN. unfold bind.
  rewrite (write_chunks_eq _ _ _ "") by (simpl; apply lookup_insert_eq).
  simpl. unfold set_fs, emit, payload; simpl. rewrite insert_insert_eq.
  destruct (iter_error r); reflexivity.
Qed.

Lemma mutagen_File_eq p m bytes :
  fs (mem m) !! p = Some bytes ->
  mutagen_File w p m = (File w bytes, emit (EvFile p) m).
Proof.
  intros H. unfold mutagen_File. mrun. rewrite H. reflexivity.
Qed.

Lemma processing_failed_eq p m :
  processing_failed p m =
  (inr None,
   let m1 := emit (EvLog Error "Error processing audio file") m in
   if bool_decide (is_Some (fs (mem m) !! p))
   then emit (EvUnlink p) (set_fs (delete p) m1) else m1).
Proof.
  unfold processing_failed. mrun.
  destruct (bool_decide _) eqn:E; simpl; rewrite ?E; reflexivity.
Qed.

Lemma process_some p m d m' :
  process w p m = (inr (Some d), m') ->
  exists a m1 m2,
    mutagen_File w p m = (inr (Some a), m1) /\
    read_tags w p a m1 = (inr tt, m2) /\
    finish w p m2 = (inr d, m').
Proof.
  unfold process, try_except, bind at 1.
  destruct (mutagen_File w p m) as [[e|[a|]] m1] eqn:HF;
    try (rewrite processing_failed_eq; discriminate); try discriminate.
  unfold bind.
  destruct (read_tags w p a m1) as [[e|[]] m2] eqn:HR;
    try (rewrite processing_failed_eq; discriminate).
  destruct (finish w p m2) as [[e|d'] m3] eqn:HFin;
    try (rewrite processing_failed_eq; discriminate).
  unfold ret. intros [= <- <-]. eauto 10.
Qed.

End Steps.

Section Fields.

Variable w : world.

Lemma finish_some p m d m' :
  finish w p m = (inr d, m') ->
  d = [("title", py_or (title m) (PyStr "Unknown Title"));
       ("singer", py_or (artist m) (PyStr "Unknown Artist"));
       ("image_url", PyStr PLACEHOLDER);
       ("year", py_or (year m) (PyInt (now_year w)))].
Proof.
  unfold finish, bind at 1. rewrite os_unlink_eq.
  destruct (bool_decide _); [|discriminate].
  unfold bind at 1, get at 1. simpl.
  destruct (image_url m) as [q|].
  - unfold bind at 1. rewrite os_unlink_eq. destruct (bool_decide _); [|discriminate].
    mrun. intros [= <- <-]. reflexivity.
  - mrun. intros [= <- <-]. reflexivity.
Qed.

Lemma tags_get_first_eq a k m :
  tags_get_first a k m =
  (match raw_frame a k with
   | Some v => inr v
   | None => inl (lookup_error a)
   end, emit (EvFrame k) m).
Proof.
  unfold tags_get_first, raw_frame, lookup_error. mrun.
  destruct (tags a) as [tg|]; [|reflexivity].
  destruct (default [PyNone] (tg !! k)); reflexivity.
Qed.

Lemma year_of_eq v (m : frame) :
  year_of v m =
  (match parsed_year v with
   | Some z => inr (PyInt z)
   | None => inl (if v is PyStr _ then ValueError else AttributeError)
   end, m).
Proof.
  unfold year_of, parsed_year. destruct v; try reflexivity.
  destruct (py_int _); reflexivity.
Qed.

Lemma fallback_title_eq a m :
  fallback_title a m =
  if negb (truthy (title m)) && has_tags a then
    match raw_frame a "TIT2" with
    | Some v => (inr tt, set_title v (emit (EvFrame "TIT2") m))
    | None => (inl (lookup_error a), emit (EvFrame "TIT2") m)
    end
  else (inr tt, m).
Proof.
  unfold fallback_title, bind at 1, get, when.
  destruct (negb _ && _); [|reflexivity].
  unfold bind. rewrite tags_get_first_eq. destruct (raw_frame a "TIT2"); reflexivity.
Qed.

Lemma fallback_artist_eq a m :
  fallback_artist a m =
  if negb (truthy (artist m)) && has_tags a then
    match raw_frame a "TPE1" with
    | Some v => (inr tt, set_artist v (emit (EvFrame "TPE1") m))
    | None => (inl (lookup_error a), emit (EvFrame "TPE1") m)
    end
  else (inr tt, m).
Proof.
  unfold fallback_artist, bind at 1, get, when.
  destruct (negb _ && _); [|reflexivity].
  unfold bind. rewrite tags_get_first_eq. destruct (raw_frame a "TPE1"); reflexivity.
Qed.

Lemma fallback_year_eq a m :
  fallback_year a m =
  if negb (truthy (year m)) && has_tags a then
    match raw_frame a "TDRC" with
    | Some v =>
        if truthy v then
          match parsed_year v with
          | Some z => (inr tt, set_year (PyInt z) (emit (EvFrame "TDRC") m))
          | None => (inl (if v is PyStr _ then ValueError else AttributeError),
                     emit (EvFrame "TDRC") m)
          end
        else (inr tt, emit (EvFrame "TDRC") m)
    | None => (inl (lookup_error a), emit (EvFrame "TDRC") m)
    end
  else (inr tt, m).
Proof.
  unfold fallback_year, bind at 1, get, when.
  destruct (negb _ && _); [|reflexivity].
  unfold bind at 1. rewrite tags_get_first_eq.
  destruct (raw_frame a "TDRC") as [v|]; [|reflexivity].
  destruct (truthy v); [|reflexivity].
  unfold bind. rewrite year_of_eq. destruct (parsed_year v); reflexivity.
Qed.

End Fields.

Section Strategies.

Variable w : world.

Lemma get_first_eq d k (m : frame) :
  get_first d k m =
  (match easy_first d k with Some v => inr v | None => inl IndexError end, m).
Proof.
  unfold get_first, easy_first, first. destruct (default _ _); reflexivity.
Qed.

Lemma cover_art_eq p m bytes :
  fs (mem m) !! p = Some bytes ->
  cover_art w p m =
  (inr tt,
   match ID3 w bytes with
   | inl _ => warn_cover (emit (EvID3 p) m)
   | inr id3 =>
       match id3 !! "APIC:" with
       | Some apic =>
           let q := fresh (dom (fs (mem m))) in
           set_image_url (Some q)
             (emit (EvCreate q) (set_fs (insert q apic) (emit (EvID3 p) m)))
       | None => emit (EvID3 p) m
       end
   end).
Proof.
  intros H. unfold cover_art, mutagen_ID3, warn_cover. mrun. rewrite H.
  destruct (ID3 w bytes) as [e|id3]; [reflexivity|].
  destruct (id3 !! "APIC:") as [apic|]; [|reflexivity].
  simpl. rewrite alter_insert_eq. reflexivity.
Qed.

Lemma mutagen_EasyID3_eq p m bytes :
  fs (mem m) !! p = Some bytes ->
  mutagen_EasyID3 w p m = (EasyID3 w bytes, emit (EvEasyID3 p) m).
Proof.
  intros H. unfold mutagen_EasyID3. mrun. rewrite H. reflexivity.
Qed.

Lemma primary_eq p m bytes :
  fs (mem m) !! p = Some bytes ->
  primary w p m =
  (inr tt,
   match EasyID3 w bytes with
   | inl _ => warn_easy (emit (EvEasyID3 p) m)
   | inr easy => primary_on easy (emit (EvEasyID3 p) m)
   end).
Proof.
  intros H. unfold primary, try_except, bind at 1.
  rewrite (mutagen_EasyID3_eq _ _ _ H).
  destruct (EasyID3 w bytes) as [e|easy]; [reflexivity|].
  unfold primary_on, bind at 1. rewrite get_first_eq.
  destruct (easy_first easy "title") as [t|]; [|reflexivity].
  unfold bind at 1 2, modify at 1. rewrite get_first_eq.
  destruct (easy_first easy "artist") as [ar|]; [|reflexivity].
  unfold bind at 1 2, modify at 1. rewrite get_first_eq.
  destruct (easy_first easy "date") as [date|]; [|reflexivity].
  unfold when. destruct (truthy date); [|reflexivity].
  unfold bind. rewrite year_of_eq.
  destruct (parsed_year date); reflexivity.
Qed.

End Strategies.

Section Tagged.

Variable w : world.

Lemma cover_on_keeps p bytes m p' c :
  fs (mem m) !! p' = Some c -> fs (mem (cover_on w p bytes m)) !! p' = Some c.
Proof.
  intros H. unfold cover_on.
  destruct (ID3 w bytes) as [e|id3]; [exact H|].
  destruct (id3 !! "APIC:"); [|exact H].
  simpl. rewrite lookup_insert_ne; [exact H|].
  intros E. rewrite <- E, fresh_free in H. discriminate.
Qed.

Lemma tagged_eq p a m bytes :
  fs (mem m) !! p = Some bytes ->
  tagged w p a m = (inr tt, tagged_on w p a bytes m).
Proof.
  intros H. unfold tagged, tagged_on.
  unfold bind at 1 2 3 4, modify at 1 2 3 4. simpl.
  change (set_image_url None (set_year PyNone (set_artist PyNone (set_title PyNone m))))
    with (clear m).
  unfold when at 1. destruct (has_tags a); [|reflexivity].
  unfold bind, when.
  destruct (is_MP3 a).
  - rewrite (cover_art_eq w p _ bytes) by exact H.
    fold (cover_on w p bytes (clear m)).
    erewrite primary_eq by (apply cover_on_keeps; exact H). reflexivity.
  - unfold ret; cbv beta iota. erewrite primary_eq by exact H. reflexivity.
Qed.

End Tagged.

Section Pipeline.

Variable w : world.

Lemma downloaded_file url r s :
  fs (mem (downloaded url r s)) !! temp_path_of s = Some (payload r).
Proof. simpl. apply lookup_insert_eq. Qed.

Lemma process_total p m : exists r m', process w p m = (inr r, m').
Proof.
  unfold process, try_except.
  match goal with |- context [match ?c with _ => _ end] => destruct c as [[e|r] m'] end.
  - rewrite processing_failed_eq. eauto.
  - eauto.
Qed.

Lemma extract_metadata_eq url s :
  extract_metadata w url s =
  match requests_get w url with
  | inl _ => (None, Store (fs s) (EvLog Error "Error downloading file" :: EvGet url :: trace s))
  | inr r =>
      if ok r then
        match iter_error r with
        | Some _ =>
            (None, Store (<[temp_path_of s := payload r]> (fs s))
                     (EvLog Error "Error downloading file"
                      :: EvCreate (temp_path_of s) :: EvGet url :: trace s))
        | None =>
            match process w (temp_path_of s) (downloaded url r s) with
            | (inr res, m) => (res, mem m)
            | (inl _, m) => (None, mem m)
            end
        end
      else (None, Store (fs s) (EvLog Error "Failed to download file" :: EvGet url :: trace s))
  end.
Proof.
  unfold extract_metadata, extract_metadata_body, try_except, bind at 1, get_url.
  unfold bind at 1, modify at 1, lift.
  destruct (requests_get w url) as [e|r]; [reflexivity|].
  destruct (ok r); [|reflexivity]. cbn [negb].
  unfold bind at 1. rewrite download_eq.
  destruct (iter_error r) as [e|]; [reflexivity|].
  change (fresh (dom (fs (mem (emit (EvGet url) (enter s)))))) with (temp_path_of s).
  change (emit (EvCreate _) _) with (downloaded url r s).
  destruct (process_total (temp_path_of s) (downloaded url r s)) as (res & m' & ->).
  reflexivity.
Qed.

Lemma process_unreadable p m bytes :
  fs (mem m) !! p = Some bytes -> File w bytes = inr None ->
  process w p m =
  (inr None, emit (EvLog Error "Failed to read audio file with mutagen") (emit (EvFile p) m)).
Proof.
  intros H HF. unfold process, try_except, bind at 1.
  rewrite (mutagen_File_eq w p m bytes H), HF. reflexivity.
Qed.

Lemma process_rejected p m bytes e :
  fs (mem m) !! p = Some bytes -> File w bytes = inl e ->
  process w p m = processing_failed p (emit (EvFile p) m).
Proof.
  intros H HF. unfold process, try_except, bind at 1.
  rewrite (mutagen_File_eq w p m bytes H), HF. reflexivity.
Qed.

Lemma process_audio p m bytes a :
  fs (mem m) !! p = Some bytes -> File w bytes = inr (Some a) ->
  process w p m =
  match fallback a (tagged_on w p a bytes (emit (EvFile p) m)) with
  | (inr _, m2) =>
      match finish w p m2 with
      | (inr d, m3) => (inr (Some d), m3)
      | (inl _, m3) => processing_failed p m3
      end
  | (inl _, m2) => processing_failed p m2
  end.
Proof.
  intros H HF. unfold process, try_except, bind at 1.
  rewrite (mutagen_File_eq w p m bytes H), HF.
  unfold read_tags, bind at 1 2.
  rewrite (tagged_eq w p a _ bytes) by exact H.
  destruct (fallback a _) as [[e|[]] m2]; [reflexivity|].
  unfold bind. destruct (finish w p m2) as [[e|d] m3]; reflexivity.
Qed.

End Pipeline.

(** ** A call that returns a dict *)

Section Success.

Variable w : world.

Lemma extract_some url s d s' :
  extract_metadata w url s = (Some d, s') ->
  exists r a m2 m3,
    requests_get w url = inr r /\ ok r = true /\ iter_error r = None /\
    File w (payload r) = inr (Some a) /\
    fallback a (after_primary w url s r a) = (inr tt, m2) /\
    finish w (temp_path_of s) m2 = (inr d, m3) /\
    s' = mem m3.
Proof.
  rewrite extract_metadata_eq.
  destruct (requests_get w url) as [e|r] eqn:Hr; [discriminate|].
  destruct (ok r) eqn:Hok; [|discriminate].
  destruct (iter_error r) eqn:Hit; [discriminate|].
  pose proof (downloaded_file url r s) as Hfile.
  destruct (File w (payload r)) as [e|[a|]] eqn:HF.
  - rewrite (process_rejected w _ _ _ e Hfile HF), processing_failed_eq. discriminate.
  - rewrite (process_audio w _ _ _ a Hfile HF). fold (after_primary w url s r a).
    destruct (fallback a (after_primary w url s r a)) as [[e|[]] m2] eqn:Hfb.
    + rewrite processing_failed_eq. discriminate.
    + destruct (finish w (temp_path_of s) m2) as [[e|d'] m3] eqn:Hfin.
      * rewrite processing_failed_eq. discriminate.
      * intros [= <- <-]. exists r, a, m2, m3. auto 10.
  - rewrite (process_unreadable w _ _ _ Hfile HF). discriminate.
Qed.

Lemma primary_on_year easy m : year_like (year m) -> year_like (year (primary_on easy m)).
Proof.
  intros H. unfold primary_on.
  repeat match goal with
         | |- context [match ?x with _ => _ end] => destruct x
         end; simpl; try exact H.
  right. eauto.
Qed.

Lemma after_primary_year url s r a : year_like (year (after_primary w url s r a)).
Proof.
  unfold after_primary, tagged_on.
  destruct (has_tags a); [|now left].
  unfold easy_on. destruct (EasyID3 w (payload r)) as [e|easy].
  - destruct (is_MP3 a); [|now left].
    unfold cover_on. destruct (ID3 w (payload r)) as [e'|id3]; [now left|].
    destruct (id3 !! "APIC:"); now left.
  - apply primary_on_year.
    destruct (is_MP3 a); [|now left].
    unfold cover_on. destruct (ID3 w (payload r)) as [e'|id3]; [now left|].
    destruct (id3 !! "APIC:"); now left.
Qed.

End Success.

Lemma fallback_some a m m' :
  fallback a m = (inr tt, m') ->
  exists mt ma,
    fallback_title a m = (inr tt, mt) /\
    fallback_artist a mt = (inr tt, ma) /\
    fallback_year a ma = (inr tt, m').
Proof.
  unfold fallback. intros H.
  apply bind_inr in H as ([] & mt & Ht & H).
  apply bind_inr in H as ([] & ma & Ha & H).
  eauto.
Qed.

(** ** The fallback, field by field *)

Lemma py_or_true v d : truthy v = true -> py_or v d = v.
Proof. unfold py_or. now intros ->. Qed.

Lemma py_or_false v d : truthy v = false -> py_or v d = d.
Proof. unfold py_or. now intros ->. Qed.

Lemma py_or_not_none v d : d <> PyNone -> py_or v d <> PyNone.
Proof.
  intros Hd. unfold py_or. destruct (truthy v) eqn:E; [|exact Hd].
  intros ->. discriminate E.
Qed.

Ltac fallback_cases :=
  repeat match goal with
         | H : (if ?b then _ else _) = (inr tt, _) |- _ => destruct b eqn:?
         | H : match ?x with _ => _ end = (inr tt, _) |- _ => destruct x eqn:?
         | H : (inl _, _) = (inr _, _) |- _ => discriminate H
         | H : (inr tt, _) = (inr tt, _) |- _ => injection H as <-
         end.

Lemma parsed_year_falsy v : truthy v = false -> parsed_year v = None.
Proof.
  destruct v as [|s| |]; try reflexivity. simpl.
  rewrite negb_false_iff. intros ->%String.eqb_eq. reflexivity.
Qed.

Ltac trace_suffix :=
  solve [ exact (eq_refl : _ = [] ++ _)
        | refine (_ : _ :: _ = (_ :: _) ++ _); simpl; f_equal; trace_suffix ].

Lemma fallback_fields a m1 m2 dt da dy :
  fallback a m1 = (inr tt, m2) ->
  exists evs,
    trace (mem m2) = evs ++ trace (mem m1) /\
    field_rule (title m1) (In (EvFrame "TIT2") evs) (fallback_value a "TIT2")
      (Some (py_or (title m2) dt)) /\
    field_rule (artist m1) (In (EvFrame "TPE1") evs) (fallback_value a "TPE1")
      (Some (py_or (artist m2) da)) /\
    field_rule (year m1) (In (EvFrame "TDRC") evs) (fallback_year_value a)
      (Some (py_or (year m2) dy)).
Proof.
  intros H. apply fallback_some in H as (mt & ma & Ht & Ha & Hy).
  rewrite fallback_title_eq in Ht. rewrite fallback_artist_eq in Ha.
  rewrite fallback_year_eq in Hy.
  unfold field_rule, fallback_year_value, fallback_value.
  fallback_cases.
  all: simpl in *; eexists; (split; [trace_suffix|]).
  all: destruct (truthy (title m1)) eqn:Et, (truthy (artist m1)) eqn:Ea,
         (truthy (year m1)) eqn:Ey, (has_tags a) eqn:Eh;
       try discriminate; simpl in *.
  all: repeat split; try (rewrite py_or_true by assumption; reflexivity);
       try (simpl; intuition congruence).
  all: intros v Hv Hvt;
       try rewrite parsed_year_falsy in Hv by assumption;
       try match goal with
           | H : parsed_year _ = Some _ |- _ => rewrite H in Hv
           end;
       simpl in Hv; try discriminate Hv; injection Hv as <-;
       rewrite py_or_true by assumption; reflexivity.
Qed.

Lemma fallback_year_like a m m2 :
  fallback a m = (inr tt, m2) -> year_like (year m) -> year_like (year m2).
Proof.
  intros H Hy. apply fallback_some in H as (mt & ma & Ht & Ha & Hyr).
  rewrite fallback_title_eq in Ht. rewrite fallback_artist_eq in Ha.
  rewrite fallback_year_eq in Hyr.
  fallback_cases; simpl; try exact Hy; right; eauto.
Qed.

Section RouteSteps.

Variable w : world.

Lemma member_truthy k o v : member k o = Some v -> json_truthy (JObj o) = true.
Proof. destruct o; [discriminate|reflexivity]. Qed.

Lemma handle_usable req s u :
  usable_url req = Some u ->
  handle_extract_metadata w req s =
  match extract_metadata w u s with
  | (None, s') =>
      (error_response "Failed to extract metadata from the audio file" 500,
       logged Error "Failed to extract metadata" s')
  | (Some d, s') =>
      match jsonify d with
      | inr body => ((body, 200), s')
      | inl _ =>
          (error_response "An unexpected error occurred" 500,
           logged Error "Unexpected error in extract_metadata route" s')
      end
  end.
Proof.
  unfold usable_url. destruct req as [e|[]]; try discriminate.
  destruct (member "url" o) as [[]|] eqn:Hm; try discriminate.
  destruct (startswith "http://" s0 || startswith "https://" s0) eqn:Hs; [|discriminate].
  intros [= ->].
  unfold handle_extract_metadata, handle_extract_metadata_body, try_except, bind at 1, lift at 1.
  unfold bind at 1. rewrite (member_truthy _ _ _ Hm). cbn [negb].
  unfold bind at 1, lift at 1, json_in. rewrite Hm.
  rewrite bool_decide_eq_true_2 by eauto. unfold ret at 1. cbn [negb].
  unfold bind at 1, lift at 1, json_item. rewrite Hm.
  unfold bind at 1, lift at 1, has_scheme. rewrite Hs. cbn [negb].
  unfold bind at 1, call_extract_metadata.
  destruct (extract_metadata w u s) as [[d|] s']; [|reflexivity].
  unfold bind, lift. destruct (jsonify d); reflexivity.
Qed.


End RouteSteps.

(** ** Blank tags make no difference *)

Lemma easy_first_drop_blank d k :
  easy_first (drop_blank d) k = unblank <$> easy_first d k.
Proof.
  unfold easy_first, drop_blank. rewrite map_lookup_filter.
  destruct (d !! k) as [l|]; simpl; [|reflexivity].
  destruct l as [|[|[|]| |] l']; simpl; reflexivity.
Qed.

Lemma truthy_unblank v : truthy (unblank v) = truthy v.
Proof. destruct v as [|[|]| |]; reflexivity. Qed.

Lemma parsed_year_unblank v : parsed_year (unblank v) = parsed_year v.
Proof. destruct v as [|[|]| |]; reflexivity. Qed.

Lemma year_error_unblank v :
  truthy v = true ->
  (if unblank v is PyStr _ then ValueError else AttributeError) =
  (if v is PyStr _ then ValueError else AttributeError).
Proof. destruct v as [|[|]| |]; try reflexivity. discriminate. Qed.

Lemma alike_refl v : alike v v.
Proof. now left. Qed.

Lemma alike_unblank v : alike (unblank v) v.
Proof. destruct v as [|[|]| |]; try apply alike_refl. right. split; reflexivity. Qed.

Lemma alike_truthy v v' : alike v v' -> truthy v = truthy v'.
Proof. intros [->|[-> ->]]; reflexivity. Qed.

Lemma alike_py_or v v' d : alike v v' -> py_or v d = py_or v' d.
Proof. unfold py_or. intros [->|[-> ->]]; reflexivity. Qed.

Lemma sim_refl m : sim m m.
Proof. unfold sim. auto using alike_refl. Qed.

Lemma sim_emit e m m' : sim m m' -> sim (emit e m) (emit e m').
Proof. unfold sim. simpl. intros (-> & ? & ? & ? & ?). auto. Qed.

Lemma sim_set_title v v' m m' : alike v v' -> sim m m' -> sim (set_title v m) (set_title v' m').
Proof. unfold sim. simpl. intros ? (? & ? & ? & ? & ?). auto. Qed.

Lemma sim_set_artist v v' m m' : alike v v' -> sim m m' -> sim (set_artist v m) (set_artist v' m').
Proof. unfold sim. simpl. intros ? (? & ? & ? & ? & ?). auto. Qed.

Lemma sim_set_year v v' m m' : alike v v' -> sim m m' -> sim (set_year v m) (set_year v' m').
Proof. unfold sim. simpl. intros ? (? & ? & ? & ? & ?). auto. Qed.

Create HintDb sim discriminated.
#[local] Hint Resolve sim_refl sim_emit sim_set_title sim_set_artist sim_set_year
  alike_refl alike_unblank : sim.

Lemma primary_on_sim easy m m' :
  sim m m' -> sim (primary_on (drop_blank easy) m) (primary_on easy m').
Proof.
  intros H. unfold primary_on, warn_easy. rewrite !easy_first_drop_blank.
  destruct (easy_first easy "title") as [t|]; simpl; [|auto with sim].
  destruct (easy_first easy "artist") as [ar|]; simpl; [|auto with sim].
  destruct (easy_first easy "date") as [date|]; simpl; [|auto 6 with sim].
  rewrite truthy_unblank, parsed_year_unblank.
  destruct (truthy date); [|auto 6 with sim].
  destruct (parsed_year date); auto 8 with sim.
Qed.

Section Blanks.

Variable w : world.

Lemma tagged_on_sim p a bytes m :
  sim (tagged_on (without_blanks w) p
         (Audio (has_tags a) (is_MP3 a) (drop_blank <$> tags a)) bytes m)
      (tagged_on w p a bytes m).
Proof.
  unfold tagged_on. simpl. destruct (has_tags a); [|apply sim_refl].
  unfold easy_on. simpl.
  change (cover_on (without_blanks w) p bytes (clear m)) with (cover_on w p bytes (clear m)).
  destruct (EasyID3 w bytes) as [e|easy].
  - apply sim_refl.
  - apply primary_on_sim, sim_refl.
Qed.

End Blanks.

Lemma raw_frame_drop_blank a k :
  raw_frame (Audio (has_tags a) (is_MP3 a) (drop_blank <$> tags a)) k =
  unblank <$> raw_frame a k.
Proof.
  unfold raw_frame. simpl. destruct (tags a) as [tg|]; simpl; [|reflexivity].
  apply easy_first_drop_blank.
Qed.

Lemma lookup_error_drop_blank a :
  lookup_error (Audio (has_tags a) (is_MP3 a) (drop_blank <$> tags a)) = lookup_error a.
Proof. unfold lookup_error. simpl. destruct (tags a); reflexivity. Qed.

Lemma fallback_title_sim a m m' :
  sim m m' ->
  ends_alike
    (fallback_title (Audio (has_tags a) (is_MP3 a) (drop_blank <$> tags a)) m)
    (fallback_title a m').
Proof.
  intros H. rewrite !fallback_title_eq, raw_frame_drop_blank, lookup_error_drop_blank.
  simpl has_tags.
  rewrite (alike_truthy _ _ (proj1 (proj2 (proj2 H)))).
  destruct (negb _ && _); [|split; [reflexivity|exact H]].
  destruct (raw_frame a "TIT2"); simpl; split; simpl; auto with sim.
Qed.

Lemma fallback_artist_sim a m m' :
  sim m m' ->
  ends_alike
    (fallback_artist (Audio (has_tags a) (is_MP3 a) (drop_blank <$> tags a)) m)
    (fallback_artist a m').
Proof.
  intros H. rewrite !fallback_artist_eq, raw_frame_drop_blank, lookup_error_drop_blank.
  simpl has_tags.
  rewrite (alike_truthy _ _ (proj1 (proj2 (proj2 (proj2 H))))).
  destruct (negb _ && _); [|split; [reflexivity|exact H]].
  destruct (raw_frame a "TPE1"); simpl; split; simpl; auto with sim.
Qed.

Lemma fallback_year_sim a m m' :
  sim m m' ->
  ends_alike
    (fallback_year (Audio (has_tags a) (is_MP3 a) (drop_blank <$> tags a)) m)
    (fallback_year a m').
Proof.
  intros H. rewrite !fallback_year_eq, raw_frame_drop_blank, lookup_error_drop_blank.
  simpl has_tags.
  rewrite (alike_truthy _ _ (proj2 (proj2 (proj2 (proj2 H))))).
  destruct (negb _ && _); [|split; [reflexivity|exact H]].
  destruct (raw_frame a "TDRC") as [v|]; simpl; [|split; simpl; auto with sim].
  rewrite truthy_unblank, parsed_year_unblank.
  destruct (truthy v) eqn:Ev; [|split; simpl; auto with sim].
  destruct (parsed_year v); split; simpl; auto with sim.
  now rewrite year_error_unblank.
Qed.

Lemma bind_sim {A B} (c c' : M frame A) (k k' : A -> M frame B) m m' :
  ends_alike (c m) (c' m') ->
  (forall x m1 m1', sim m1 m1' -> ends_alike (k x m1) (k' x m1')) ->
  ends_alike (bind c k m) (bind c' k' m').
Proof.
  unfold bind, ends_alike.
  destruct (c m) as [[e|x] m1], (c' m') as [[e'|x'] m1']; simpl;
    intros [E Hs] Hk; try discriminate; injection E as <-; auto.
Qed.

Lemma fallback_sim a m m' :
  sim m m' ->
  ends_alike
    (fallback (Audio (has_tags a) (is_MP3 a) (drop_blank <$> tags a)) m)
    (fallback a m').
Proof.
  intros H. unfold fallback.
  apply bind_sim; [now apply fallback_title_sim|]. intros _ m1 m1' H1.
  apply bind_sim; [now apply fallback_artist_sim|]. intros _ m2 m2' H2.
  now apply fallback_year_sim.
Qed.

Lemma sim_set_fs f m m' : sim m m' -> sim (set_fs f m) (set_fs f m').
Proof. unfold sim. simpl. intros (-> & ? & ? & ? & ?). auto. Qed.

Lemma finish_eq w p m :
  finish w p m =
  if bool_decide (is_Some (fs (mem m) !! p)) then
    match image_url m with
    | Some q =>
        if bool_decide (is_Some (delete p (fs (mem m)) !! q)) then
          (inr (result_dict w m),
           emit (EvUnlink q) (set_fs (delete q) (emit (EvUnlink p) (set_fs (delete p) m))))
        else (inl FileNotFoundError, emit (EvUnlink p) (set_fs (delete p) m))
    | None => (inr (result_dict w m), emit (EvUnlink p) (set_fs (delete p) m))
    end
  else (inl FileNotFoundError, m).
Proof.
  unfold finish, bind at 1. rewrite os_unlink_eq.
  destruct (bool_decide _); [|reflexivity].
  unfold bind at 1, get at 1. simpl image_url.
  destruct (image_url m) as [q|].
  - unfold bind at 1. rewrite os_unlink_eq. simpl.
    destruct (bool_decide _); reflexivity.
  - reflexivity.
Qed.

Section BlankRuns.

Variable w : world.

Lemma finish_sim p m m' :
  sim m m' -> ends_alike (finish (without_blanks w) p m) (finish w p m').
Proof.
  intros H. rewrite !finish_eq.
  assert (Hd : result_dict (without_blanks w) m = result_dict w m').
  { destruct H as (_ & _ & Ht & Ha & Hy). unfold result_dict. simpl now_year.
    now rewrite (alike_py_or _ _ _ Ht), (alike_py_or _ _ _ Ha), (alike_py_or _ _ _ Hy). }
  rewrite Hd.
  destruct H as (Hm & Hi & Ht & Ha & Hy). rewrite Hm, Hi.
  assert (Hs : sim m m') by (unfold sim; auto).
  destruct (bool_decide _); [|split; [reflexivity|exact Hs]].
  destruct (image_url m') as [q|].
  - destruct (bool_decide _); split; simpl fst; simpl snd;
      auto using sim_emit, sim_set_fs.
  - split; simpl fst; simpl snd; auto using sim_emit, sim_set_fs.
Qed.

Lemma processing_failed_sim p m m' :
  sim m m' -> ends_alike (processing_failed p m) (processing_failed p m').
Proof.
  intros H. rewrite !processing_failed_eq. destruct H as (Hm & Hi & Ht & Ha & Hy).
  assert (Hs : sim m m') by (unfold sim; auto).
  rewrite Hm. split; [reflexivity|]. simpl snd.
  destruct (bool_decide _); auto using sim_emit, sim_set_fs.
Qed.

End BlankRuns.

Section BlankCalls.

Variable w : world.

Lemma process_without_blanks p m bytes :
  fs (mem m) !! p = Some bytes ->
  fst (process (without_blanks w) p m) = fst (process w p m) /\
  mem (snd (process (without_blanks w) p m)) = mem (snd (process w p m)).
Proof.
  intros H. destruct (File w bytes) as [e|[a|]] eqn:HF.
  - rewrite (process_rejected (without_blanks w) p m bytes e H) by (simpl; now rewrite HF).
    rewrite (process_rejected w p m bytes e H HF). auto.
  - rewrite (process_audio (without_blanks w) p m bytes
               (Audio (has_tags a) (is_MP3 a) (drop_blank <$> tags a)) H)
      by (simpl; now rewrite HF).
    rewrite (process_audio w p m bytes a H HF).
    pose proof (fallback_sim a _ _ (tagged_on_sim w p a bytes (emit (EvFile p) m))) as [E Hs].
    destruct (fallback (Audio _ _ _) _) as [[e1|[]] m1], (fallback a _) as [[e2|[]] m2];
      simpl in E, Hs; try discriminate.
    + pose proof (processing_failed_sim p m1 m2 Hs) as [E' [Hm _]]. auto.
    + pose proof (finish_sim w p m1 m2 Hs) as [E' Hs'].
      destruct (finish (without_blanks w) p m1) as [[e1|d1] m3],
               (finish w p m2) as [[e2|d2] m4]; simpl in E', Hs'; try discriminate.
      * pose proof (processing_failed_sim p m3 m4 Hs') as [E'' [Hm _]]. auto.
      * injection E' as <-. destruct Hs' as [Hm _]. auto.
  - rewrite (process_unreadable (without_blanks w) p m bytes H) by (simpl; now rewrite HF).
    rewrite (process_unreadable w p m bytes H HF). auto.
Qed.

Lemma extract_metadata_without_blanks url s :
  extract_metadata (without_blanks w) url s = extract_metadata w url s.
Proof.
  rewrite !extract_metadata_eq. simpl requests_get.
  destruct (requests_get w url) as [e|r]; [reflexivity|].
  destruct (ok r); [|reflexivity].
  destruct (iter_error r); [reflexivity|].
  destruct (process_without_blanks (temp_path_of s) (downloaded url r s) (payload r)
              (downloaded_file url r s)) as [E Hm].
  destruct (process (without_blanks w) _ _) as [[e1|r1] m1],
           (process w _ _) as [[e2|r2] m2]; simpl in E, Hm; try discriminate.
  - now rewrite Hm.
  - injection E as <-. now rewrite Hm.
Qed.

End BlankCalls.

(** ** Where the files are *)

Lemma keeps_refl m : keeps m m.
Proof. split; reflexivity. Qed.

Lemma keeps_trans m1 m2 m3 : keeps m1 m2 -> keeps m2 m3 -> keeps m1 m3.
Proof. unfold keeps. intros [-> ->] [-> ->]. auto. Qed.

Lemma bind_keeps {A B} (c : M frame A) (k : A -> M frame B) m :
  (forall m0, keeps m0 (snd (c m0))) ->
  (forall x m0, keeps m0 (snd (k x m0))) ->
  keeps m (snd (bind c k m)).
Proof.
  intros Hc Hk. unfold bind. specialize (Hc m).
  destruct (c m) as [[e|x] m1]; simpl in *; [exact Hc|].
  eapply keeps_trans; [exact Hc|apply Hk].
Qed.

Lemma fallback_title_keeps a m : keeps m (snd (fallback_title a m)).
Proof.
  rewrite fallback_title_eq.
  destruct (negb _ && _); [|apply keeps_refl].
  destruct (raw_frame a "TIT2"); split; reflexivity.
Qed.

Lemma fallback_artist_keeps a m : keeps m (snd (fallback_artist a m)).
Proof.
  rewrite fallback_artist_eq.
  destruct (negb _ && _); [|apply keeps_refl].
  destruct (raw_frame a "TPE1"); split; reflexivity.
Qed.

Lemma fallback_year_keeps a m : keeps m (snd (fallback_year a m)).
Proof.
  rewrite fallback_year_eq.
  destruct (negb _ && _); [|apply keeps_refl].
  destruct (raw_frame a "TDRC") as [v|]; [|split; reflexivity].
  destruct (truthy v); [|split; reflexivity].
  destruct (parsed_year v); split; reflexivity.
Qed.

Lemma fallback_keeps a m : keeps m (snd (fallback a m)).
Proof.
  unfold fallback.
  apply bind_keeps; [apply fallback_title_keeps|]. intros _ m1.
  apply bind_keeps; [apply fallback_artist_keeps|]. intros _ m2.
  apply fallback_year_keeps.
Qed.

Lemma primary_on_keeps easy m : keeps m (primary_on easy m).
Proof.
  unfold primary_on.
  repeat match goal with
         | |- context [match ?x with _ => _ end] => destruct x
         end; split; reflexivity.
Qed.

Section Files.

Variable w : world.

Lemma easy_on_keeps p bytes m : keeps m (easy_on w p bytes m).
Proof.
  unfold easy_on. destruct (EasyID3 w bytes) as [e|easy]; [split; reflexivity|].
  eapply keeps_trans; [|apply primary_on_keeps]. split; reflexivity.
Qed.

Lemma cover_path_fresh s r :
  fs s !! cover_path_of s r = None /\ cover_path_of s r <> temp_path_of s.
Proof.
  pose proof (fresh_free (<[temp_path_of s := payload r]> (fs s))) as H.
  fold (cover_path_of s r) in H.
  apply lookup_insert_None in H as [H1 H2]. auto.
Qed.

(** After the primary strategy the downloaded file is there, and beside it
    the cover file when one was written. *)
Lemma after_primary_files url s r a :
  match image_url (after_primary w url s r a) with
  | None => fs (mem (after_primary w url s r a)) = <[temp_path_of s := payload r]> (fs s)
  | Some q =>
      q = cover_path_of s r /\
      exists apic,
        fs (mem (after_primary w url s r a)) =
        <[q := apic]> (<[temp_path_of s := payload r]> (fs s))
  end.
Proof.
  unfold after_primary, tagged_on.
  destruct (has_tags a); [|reflexivity].
  match goal with
  | |- context [easy_on w ?p ?b ?m] => destruct (easy_on_keeps p b m) as [-> ->]
  end.
  destruct (is_MP3 a); [|reflexivity].
  unfold cover_on. destruct (ID3 w (payload r)) as [e|id3]; [reflexivity|].
  destruct (id3 !! "APIC:") as [apic|]; [|reflexivity].
  simpl. split; [reflexivity|]. eauto.
Qed.

(** A call that returns a dict leaves the files as it found them. *)
Lemma success_leaves_no_file url s d s' :
  extract_metadata w url s = (Some d, s') -> fs s' = fs s.
Proof.
  intros H. apply extract_some in H as (r & a & m2 & m3 & _ & _ & _ & _ & Hfb & Hfin & ->).
  pose proof (fallback_keeps a (after_primary w url s r a)) as [Hfs Him].
  rewrite Hfb in Hfs, Him. simpl in Hfs, Him.
  pose proof (after_primary_files url s r a) as Hap.
  pose proof (cover_path_fresh s r) as [Hq Hne].
  rewrite <- Him in Hap. rewrite finish_eq in Hfin. rewrite Hfs in Hfin.
  destruct (bool_decide _); [|discriminate].
  destruct (image_url m2) as [q|].
  - destruct Hap as [-> [apic Hap]]. rewrite Hap in Hfin.
    destruct (bool_decide _); [|discriminate].
    injection Hfin as _ <-. simpl. rewrite Hfs, Hap.
    rewrite delete_insert_ne by congruence.
    rewrite (delete_insert_id (fs s) (temp_path_of s)) by apply fresh_free.
    apply delete_insert_id, Hq.
  - injection Hfin as _ <-. simpl. rewrite Hfs, Hap.
    apply delete_insert_id, fresh_free.
Qed.

(** The fallback raises: the call returns [None] from the handler of the
    inner [try]. *)
Lemma fallback_raises url s r a e m2 :
  requests_get w url = inr r -> ok r = true -> iter_error r = None ->
  File w (payload r) = inr (Some a) ->
  fallback a (after_primary w url s r a) = (inl e, m2) ->
  extract_metadata w url s = (None, mem (snd (processing_failed (temp_path_of s) m2))).
Proof.
  intros Hr Hok Hit HF Hfb.
  rewrite extract_metadata_eq, Hr, Hok, Hit.
  rewrite (process_audio w _ _ _ a (downloaded_file url r s) HF).
  fold (after_primary w url s r a). rewrite Hfb.
  rewrite processing_failed_eq. reflexivity.
Qed.

End Files.

Section Leaks.

Variable w : world.

(** The cover was written: it is in the files the fallback starts from. *)
Lemma after_primary_cover url s r a id3 apic :
  has_tags a = true -> is_MP3 a = true ->
  ID3 w (payload r) = inr id3 -> id3 !! "APIC:" = Some apic ->
  fs (mem (after_primary w url s r a)) =
  <[cover_path_of s r := apic]> (<[temp_path_of s := payload r]> (fs s)).
Proof.
  intros Ht Hm Hid Hap. unfold after_primary, tagged_on. rewrite Ht, Hm.
  match goal with
  | |- context [easy_on w ?p ?b ?m] => destruct (easy_on_keeps w p b m) as [-> _]
  end.
  unfold cover_on. rewrite Hid, Hap. reflexivity.
Qed.

(** The primary strategy raised on a file without tags: it has logged its
    warning and left the title unset. *)
Lemma after_primary_untagged url s r a e :
  has_tags a = true -> EasyID3 w (payload r) = inl e ->
  exists m,
    after_primary w url s r a =
    warn_easy (emit (EvEasyID3 (temp_path_of s)) m) /\ title m = PyNone.
Proof.
  intros Ht He. unfold after_primary, tagged_on, easy_on. rewrite Ht, He.
  eexists. split; [reflexivity|].
  destruct (is_MP3 a); [|reflexivity].
  unfold cover_on. destruct (ID3 w (payload r)) as [e'|id3]; [reflexivity|].
  destruct (id3 !! "APIC:"); reflexivity.
Qed.

(** The downloaded file is still there when the fallback starts. *)
Lemma after_primary_temp url s r a :
  fs (mem (after_primary w url s r a)) !! temp_path_of s = Some (payload r).
Proof.
  pose proof (after_primary_files w url s r a) as H.
  destruct (image_url (after_primary w url s r a)) as [q|].
  - destruct H as [-> [apic ->]]. destruct (cover_path_fresh s r) as [_ Hne].
    rewrite lookup_insert_ne by exact Hne. apply lookup_insert_eq.
  - rewrite H. apply lookup_insert_eq.
Qed.

End Leaks.

(** A raw frame that holds a value gives one. *)
Lemma raw_frame_some a tg k :
  tags a = Some tg -> tg !! k <> Some [] -> exists v, raw_frame a k = Some v.
Proof.
  intros Ht Hk. unfold raw_frame. rewrite Ht.
  destruct (tg !! k) as [[|v l]|]; simpl; eauto. now destruct Hk.
Qed.

Lemma fallback_title_returns a m v :
  raw_frame a "TIT2" = Some v ->
  exists m', fallback_title a m = (inr tt, m') /\ year m' = year m.
Proof.
  intros H. rewrite fallback_title_eq, H. destruct (negb _ && _); eauto.
Qed.

Lemma fallback_artist_returns a m v :
  raw_frame a "TPE1" = Some v ->
  exists m', fallback_artist a m = (inr tt, m') /\ year m' = year m.
Proof.
  intros H. rewrite fallback_artist_eq, H. destruct (negb _ && _); eauto.
Qed.

(** ** Small facts the statements use *)

Lemma ok_false (r : response) : ok r = false <-> 400 <= status_code r < 600.
Proof.
  unfold ok. rewrite negb_false_iff, andb_true_iff, Z.leb_le, Z.ltb_lt. reflexivity.
Qed.

Lemma usable_url_object url :
  startswith "http://" url || startswith "https://" url = true ->
  usable_url (inr (JObj [("url", JStr url)])) = Some url.
Proof.
  intros H. unfold usable_url.
  change (member "url" [("url", JStr url)]) with (Some (JStr url)).
  cbv beta iota. now rewrite H.
Qed.

(** * Lemmas on the outcome, the year and the trace of a call *)

Section Returns.

Variable w : world.

(** Once the fallback has returned, the cleanup finds both files and the
    call hands back the dict. *)
Lemma finish_after_fallback url s r a m2 :
  fallback a (after_primary w url s r a) = (inr tt, m2) ->
  exists m3,
    finish w (temp_path_of s) m2 = (inr (result_dict w m2), m3) /\
    fs (mem m3) = fs s.
Proof.
  intros Hfb.
  pose proof (fallback_keeps a (after_primary w url s r a)) as [Hfs Him].
  rewrite Hfb in Hfs, Him. simpl in Hfs, Him.
  pose proof (after_primary_files w url s r a) as Hap.
  pose proof (after_primary_temp w url s r a) as Htemp.
  pose proof (cover_path_fresh s r) as [Hq Hne].
  rewrite <- Him in Hap. rewrite <- Hfs in Htemp.
  rewrite finish_eq.
  rewrite bool_decide_eq_true_2 by (rewrite Htemp; eauto).
  destruct (image_url m2) as [q|].
  - destruct Hap as [-> [apic Hap]]. rewrite Hfs, Hap.
    rewrite bool_decide_eq_true_2.
    + eexists. split; [reflexivity|]. simpl. rewrite Hfs, Hap.
      rewrite delete_insert_ne by congruence.
      rewrite (delete_insert_id (fs s) (temp_path_of s)) by apply fresh_free.
      apply delete_insert_id, Hq.
    + rewrite delete_insert_ne by congruence. rewrite lookup_insert_eq. eauto.
  - eexists. split; [reflexivity|]. simpl. rewrite Hfs, Hap.
    apply delete_insert_id, fresh_free.
Qed.

Lemma extract_metadata_outcome url s :
  fst (extract_metadata w url s) = outcome w url s.
Proof.
  rewrite extract_metadata_eq. unfold outcome.
  destruct (requests_get w url) as [e|r]; [reflexivity|].
  destruct (ok r); [|reflexivity].
  destruct (iter_error r); [reflexivity|].
  pose proof (downloaded_file url r s) as Hfile.
  destruct (File w (payload r)) as [e|[a|]] eqn:HF.
  - rewrite (process_rejected w _ _ _ e Hfile HF), processing_failed_eq. reflexivity.
  - rewrite (process_audio w _ _ _ a Hfile HF). fold (after_primary w url s r a).
    destruct (fallback a (after_primary w url s r a)) as [[e|[]] m2] eqn:Hfb.
    + rewrite processing_failed_eq. reflexivity.
    + destruct (finish_after_fallback url s r a m2 Hfb) as (m3 & -> & _). reflexivity.
  - rewrite (process_unreadable w _ _ _ Hfile HF). reflexivity.
Qed.

End Returns.

(** ** The variables do not depend on the files *)

Lemma vars_eq m m' :
  vars m = vars m' -> title m = title m' /\ artist m = artist m' /\ year m = year m'.
Proof. unfold vars. intros [= -> -> ->]. auto. Qed.

Lemma result_dict_vars w m m' : vars m = vars m' -> result_dict w m = result_dict w m'.
Proof. intros (Ht & Ha & Hy)%vars_eq. unfold result_dict. now rewrite Ht, Ha, Hy. Qed.

Lemma primary_on_vars easy m m' :
  vars m = vars m' -> vars (primary_on easy m) = vars (primary_on easy m').
Proof.
  intros (Ht & Ha & Hy)%vars_eq. unfold primary_on.
  repeat match goal with
         | |- context [match ?x with _ => _ end] => destruct x
         end; unfold vars; simpl; congruence.
Qed.

Lemma after_primary_with_ID3 f w url s r a :
  vars (after_primary (with_ID3 f w) url s r a) = vars (after_primary w url s r a).
Proof.
  unfold after_primary, tagged_on. destruct (has_tags a); [|reflexivity].
  unfold easy_on. simpl EasyID3.
  destruct (EasyID3 w (payload r)) as [e|easy].
  - destruct (is_MP3 a); [|reflexivity].
    unfold cover_on. simpl ID3.
    destruct (f (payload r)) as [?|i1], (ID3 w (payload r)) as [?|i2];
      try destruct (i1 !! "APIC:"); try destruct (i2 !! "APIC:"); reflexivity.
  - apply primary_on_vars.
    destruct (is_MP3 a); [|reflexivity].
    unfold cover_on. simpl ID3.
    destruct (f (payload r)) as [?|i1], (ID3 w (payload r)) as [?|i2];
      try destruct (i1 !! "APIC:"); try destruct (i2 !! "APIC:"); reflexivity.
Qed.

(** Two runs that end with the same result and the same variables. *)
Lemma bind_vars {A B} (c : M frame A) (k : A -> M frame B) m m' :
  fst (c m) = fst (c m') /\ vars (snd (c m)) = vars (snd (c m')) ->
  (forall x m1 m1', vars m1 = vars m1' ->
     fst (k x m1) = fst (k x m1') /\ vars (snd (k x m1)) = vars (snd (k x m1'))) ->
  fst (bind c k m) = fst (bind c k m') /\
  vars (snd (bind c k m)) = vars (snd (bind c k m')).
Proof.
  unfold bind. destruct (c m) as [[e|x] m1], (c m') as [[e'|x'] m1']; simpl;
    intros [E Hv] Hk; try discriminate; injection E as <-; auto.
Qed.

Lemma fallback_title_vars a m m' :
  vars m = vars m' ->
  fst (fallback_title a m) = fst (fallback_title a m') /\
  vars (snd (fallback_title a m)) = vars (snd (fallback_title a m')).
Proof.
  intros H. pose proof (vars_eq _ _ H) as (Ht & Ha & Hy).
  rewrite !fallback_title_eq, Ht.
  destruct (negb _ && _); [|auto].
  destruct (raw_frame a "TIT2"); unfold vars; simpl; split; congruence.
Qed.

Lemma fallback_artist_vars a m m' :
  vars m = vars m' ->
  fst (fallback_artist a m) = fst (fallback_artist a m') /\
  vars (snd (fallback_artist a m)) = vars (snd (fallback_artist a m')).
Proof.
  intros H. pose proof (vars_eq _ _ H) as (Ht & Ha & Hy).
  rewrite !fallback_artist_eq, Ha.
  destruct (negb _ && _); [|auto].
  destruct (raw_frame a "TPE1"); unfold vars; simpl; split; congruence.
Qed.

Lemma fallback_year_vars a m m' :
  vars m = vars m' ->
  fst (fallback_year a m) = fst (fallback_year a m') /\
  vars (snd (fallback_year a m)) = vars (snd (fallback_year a m')).
Proof.
  intros H. pose proof (vars_eq _ _ H) as (Ht & Ha & Hy).
  rewrite !fallback_year_eq, Hy.
  destruct (negb _ && _); [|auto].
  destruct (raw_frame a "TDRC") as [v|]; [|unfold vars; simpl; split; congruence].
  destruct (truthy v); [|unfold vars; simpl; split; congruence].
  destruct (parsed_year v); unfold vars; simpl; split; congruence.
Qed.

Lemma fallback_vars a m m' :
  vars m = vars m' ->
  fst (fallback a m) = fst (fallback a m') /\
  vars (snd (fallback a m)) = vars (snd (fallback a m')).
Proof.
  intros H. unfold fallback.
  apply bind_vars; [now apply fallback_title_vars|]. intros _ m1 m1' H1.
  apply bind_vars; [now apply fallback_artist_vars|]. intros _ m2 m2' H2.
  now apply fallback_year_vars.
Qed.

(** ** The year of a date *)

Lemma digit_value_nonneg c : is_digit c = true -> 0 <= digit_value c.
Proof.
  unfold is_digit, digit_value. intros [H _]%andb_true_iff.
  apply Nat.leb_le in H. lia.
Qed.

Lemma digits_nonneg s : forall acc b z, 0 <= acc -> digits acc b s = Some z -> 0 <= z.
Proof.
  induction s as [|c s IH]; intros acc b z Hacc; simpl.
  - destruct b; [|discriminate]. now intros [= <-].
  - destruct (is_digit c) eqn:Hd.
    + apply IH. pose proof (digit_value_nonneg c Hd). lia.
    + destruct (Ascii.eqb c "_" && b); [|discriminate]. now apply IH.
Qed.

Lemma no_dash_before_dash s : no_dash (before_dash s) = true.
Proof.
  induction s as [|c s IH]; [reflexivity|].
  change (before_dash (String c s))
    with (if Ascii.eqb c "-" then EmptyString else String c (before_dash s)).
  destruct (Ascii.eqb c "-") eqn:E; [reflexivity|].
  simpl. now rewrite E, IH.
Qed.

Lemma no_dash_lstrip s : no_dash s = true -> no_dash (lstrip s) = true.
Proof.
  induction s as [|c s IH]; [reflexivity|]. intros H. simpl.
  destruct (is_space c); [|exact H].
  apply IH. simpl in H. now apply andb_true_iff in H as [_ H].
Qed.

Lemma no_dash_rstrip s : no_dash s = true -> no_dash (rstrip s) = true.
Proof.
  induction s as [|c s IH]; [reflexivity|]. intros H.
  simpl in H. apply andb_true_iff in H as [Hc Hs]. specialize (IH Hs). simpl.
  destruct (rstrip s) as [|c' r].
  - destruct (is_space c); [reflexivity|]. simpl. now rewrite Hc.
  - simpl. simpl in IH. now rewrite Hc, IH.
Qed.

(** [int] of a string without a dash is not negative. *)
Lemma py_int_nonneg s z : no_dash s = true -> py_int s = Some z -> 0 <= z.
Proof.
  intros H. apply no_dash_lstrip, no_dash_rstrip in H. unfold py_int.
  destruct (Z.ltb max_str_digits _); [discriminate|]. unfold signed_digits.
  destruct (rstrip (lstrip s)) as [|c r]; [discriminate|].
  simpl in H. apply andb_true_iff in H as [Hc _].
  destruct c as [[] [] [] [] [] [] [] []]; try discriminate Hc;
    apply digits_nonneg; lia.
Qed.

Lemma parsed_year_nonneg v z : parsed_year v = Some z -> 0 <= z.
Proof.
  destruct v as [|s| |]; try discriminate. simpl.
  apply py_int_nonneg, no_dash_before_dash.
Qed.

Lemma before_dash_no_dash s : no_dash s = true -> before_dash s = s.
Proof.
  induction s as [|c s IH]; [reflexivity|]. simpl no_dash.
  intros [Hc Hs]%andb_true_iff.
  change (before_dash (String c s))
    with (if Ascii.eqb c "-" then EmptyString else String c (before_dash s)).
  apply negb_true_iff in Hc. now rewrite Hc, IH.
Qed.

Lemma before_dash_append a b :
  no_dash a = true -> before_dash (String.append a (String "-" b)) = a.
Proof.
  induction a as [|c a IH]; [reflexivity|]. simpl no_dash.
  intros [Hc Hs]%andb_true_iff.
  change (before_dash (String.append (String c a) (String "-" b)))
    with (if Ascii.eqb c "-" then EmptyString
          else String c (before_dash (String.append a (String "-" b)))).
  apply negb_true_iff in Hc. now rewrite Hc, IH.
Qed.

Lemma year_ok_none : year_ok PyNone.
Proof. now left. Qed.

Lemma primary_on_year_ok easy m : year_ok (year m) -> year_ok (year (primary_on easy m)).
Proof.
  intros H. unfold primary_on.
  repeat match goal with
         | |- context [match ?x with _ => _ end] => destruct x eqn:?
         end; simpl; try exact H.
  right. eauto using parsed_year_nonneg.
Qed.

Lemma after_primary_year_ok w url s r a : year_ok (year (after_primary w url s r a)).
Proof.
  unfold after_primary, tagged_on.
  destruct (has_tags a); [|apply year_ok_none].
  unfold easy_on. destruct (EasyID3 w (payload r)) as [e|easy].
  - destruct (is_MP3 a); [|apply year_ok_none].
    unfold cover_on. destruct (ID3 w (payload r)) as [e'|id3]; [apply year_ok_none|].
    destruct (id3 !! "APIC:"); apply year_ok_none.
  - apply primary_on_year_ok.
    destruct (is_MP3 a); [|apply year_ok_none].
    unfold cover_on. destruct (ID3 w (payload r)) as [e'|id3]; [apply year_ok_none|].
    destruct (id3 !! "APIC:"); apply year_ok_none.
Qed.

Lemma fallback_year_ok a m m2 :
  fallback a m = (inr tt, m2) -> year_ok (year m) -> year_ok (year m2).
Proof.
  intros H Hy. apply fallback_some in H as (mt & ma & Ht & Ha & Hyr).
  rewrite fallback_title_eq in Ht. rewrite fallback_artist_eq in Ha.
  rewrite fallback_year_eq in Hyr.
  fallback_cases; simpl; try exact Hy; right; eauto using parsed_year_nonneg.
Qed.

(** ** The answers of the route *)

Section Answers.

Variable w : world.

(** Without a url to fetch the route answers with an error. *)
Lemma handle_unusable_error req s :
  usable_url req = None ->
  exists msg code,
    fst (handle_extract_metadata w req s) = error_response msg code /\ code <> 200.
Proof.
  intros H. unfold handle_extract_metadata, handle_extract_metadata_body.
  destruct req as [e|data].
  { do 2 eexists. split; [reflexivity|discriminate]. }
  destruct data as [|b|z|str|l|o]; simpl in *.
  - do 2 eexists. split; [reflexivity|discriminate].
  - destruct b; do 2 eexists; (split; [reflexivity|discriminate]).
  - mrun. destruct (Z.eqb z 0); do 2 eexists; (split; [reflexivity|discriminate]).
  - mrun. destruct (String.eqb str ""); simpl.
    + do 2 eexists; (split; [reflexivity|discriminate]).
    + destruct (contains "url" str); simpl; do 2 eexists; (split; [reflexivity|discriminate]).
  - mrun. destruct l; simpl.
    + do 2 eexists; (split; [reflexivity|discriminate]).
    + destruct (_ || _); simpl; do 2 eexists; (split; [reflexivity|discriminate]).
  - mrun. destruct o as [|kv o']; simpl.
    + do 2 eexists; (split; [reflexivity|discriminate]).
    + remember (kv :: o') as o. destruct (member "url" o) as [v|] eqn:Hm.
      * rewrite bool_decide_eq_true_2 by (eexists; reflexivity). simpl.
        destruct v; simpl; try (do 2 eexists; (split; [reflexivity|discriminate])).
        destruct (startswith "http://" _ || startswith "https://" _); [discriminate|].
        simpl. do 2 eexists; (split; [reflexivity|discriminate]).
      * rewrite bool_decide_eq_false_2 by (intros [? ?]; discriminate). simpl.
        do 2 eexists; (split; [reflexivity|discriminate]).
Qed.

(** The title the primary strategy has read stays, whatever happens to the
    artist and to the date after it. *)
Lemma after_primary_title url s r a easy t :
  has_tags a = true -> EasyID3 w (payload r) = inr easy ->
  easy_first easy "title" = Some t ->
  title (after_primary w url s r a) = t.
Proof.
  intros Ht He Hf. unfold after_primary, tagged_on, easy_on. rewrite Ht, He.
  unfold primary_on. rewrite Hf.
  repeat match goal with
         | |- context [match ?x with _ => _ end] => destruct x
         end; reflexivity.
Qed.

Lemma after_primary_artist url s r a easy t ar :
  has_tags a = true -> EasyID3 w (payload r) = inr easy ->
  easy_first easy "title" = Some t -> easy_first easy "artist" = Some ar ->
  artist (after_primary w url s r a) = ar.
Proof.
  intros Ht He Hf Ha. unfold after_primary, tagged_on, easy_on. rewrite Ht, He.
  unfold primary_on. rewrite Hf, Ha.
  repeat match goal with
         | |- context [match ?x with _ => _ end] => destruct x
         end; reflexivity.
Qed.

End Answers.

(** ** One request per call *)

Lemma quiet_refl m : quiet m m.
Proof. exists []. split; [reflexivity|]. intros u []. Qed.

Lemma quiet_trans m1 m2 m3 : quiet m1 m2 -> quiet m2 m3 -> quiet m1 m3.
Proof.
  intros (e1 & H1 & N1) (e2 & H2 & N2). exists (e2 ++ e1). split.
  - rewrite H2, H1. apply app_assoc.
  - intros u [H|H]%in_app_or; [apply (N2 u H)|apply (N1 u H)].
Qed.

Lemma quiet_same m m' : trace (mem m') = trace (mem m) -> quiet m m'.
Proof. intros H. exists []. split; [exact H|]. intros u []. Qed.

Lemma quiet_emit e m : (forall u, e <> EvGet u) -> quiet m (emit e m).
Proof.
  intros H. exists [e]. split; [reflexivity|].
  intros u [E|[]]. now apply (H u).
Qed.

Lemma quiet_emit_after e m m' : (forall u, e <> EvGet u) -> quiet m m' -> quiet m (emit e m').
Proof. intros H Hq. eapply quiet_trans; [exact Hq|now apply quiet_emit]. Qed.

Lemma bind_quiet {A B} (c : M frame A) (k : A -> M frame B) m :
  (forall m0, quiet m0 (snd (c m0))) ->
  (forall x m0, quiet m0 (snd (k x m0))) ->
  quiet m (snd (bind c k m)).
Proof.
  intros Hc Hk. unfold bind. specialize (Hc m).
  destruct (c m) as [[e|x] m1]; simpl in *; [exact Hc|].
  eapply quiet_trans; [exact Hc|apply Hk].
Qed.

Ltac quiet_step :=
  first [ apply quiet_refl
        | apply quiet_same; reflexivity
        | apply quiet_emit_after; [discriminate|] ].

Lemma fallback_title_quiet a m : quiet m (snd (fallback_title a m)).
Proof.
  rewrite fallback_title_eq. destruct (negb _ && _); [|apply quiet_refl].
  destruct (raw_frame a "TIT2"); simpl.
  - eapply quiet_trans; [apply (quiet_emit (EvFrame "TIT2")); discriminate|].
    apply quiet_same. reflexivity.
  - apply quiet_emit. discriminate.
Qed.

Lemma fallback_artist_quiet a m : quiet m (snd (fallback_artist a m)).
Proof.
  rewrite fallback_artist_eq. destruct (negb _ && _); [|apply quiet_refl].
  destruct (raw_frame a "TPE1"); simpl.
  - eapply quiet_trans; [apply (quiet_emit (EvFrame "TPE1")); discriminate|].
    apply quiet_same. reflexivity.
  - apply quiet_emit. discriminate.
Qed.

Lemma fallback_year_quiet a m : quiet m (snd (fallback_year a m)).
Proof.
  rewrite fallback_year_eq. destruct (negb _ && _); [|apply quiet_refl].
  destruct (raw_frame a "TDRC") as [v|]; simpl; [|apply quiet_emit; discriminate].
  destruct (truthy v); [|apply quiet_emit; discriminate].
  destruct (parsed_year v); simpl; [|apply quiet_emit; discriminate].
  eapply quiet_trans; [apply (quiet_emit (EvFrame "TDRC")); discriminate|].
  apply quiet_same. reflexivity.
Qed.

Lemma fallback_quiet a m : quiet m (snd (fallback a m)).
Proof.
  unfold fallback.
  apply bind_quiet; [apply fallback_title_quiet|]. intros _ m1.
  apply bind_quiet; [apply fallback_artist_quiet|]. intros _ m2.
  apply fallback_year_quiet.
Qed.

Lemma primary_on_quiet easy m : quiet m (primary_on easy m).
Proof.
  unfold primary_on, warn_easy.
  repeat match goal with
         | |- context [match ?x with _ => _ end] => destruct x
         end;
    first [ apply quiet_same; reflexivity
          | eapply quiet_trans;
            [|apply (quiet_emit (EvLog Warning "Failed to extract metadata using EasyID3"));
              discriminate];
            apply quiet_same; reflexivity ].
Qed.

Section Quiet.

Variable w : world.

Lemma cover_on_quiet p bytes m : quiet m (cover_on w p bytes m).
Proof.
  unfold cover_on, warn_cover.
  destruct (ID3 w bytes) as [e|id3].
  - eapply quiet_trans; apply quiet_emit; discriminate.
  - destruct (id3 !! "APIC:").
    + exists [EvCreate (fresh (dom (fs (mem m)))); EvID3 p]. split; [reflexivity|].
      intros u [H|[H|[]]]; discriminate.
    + apply quiet_emit. discriminate.
Qed.

Lemma easy_on_quiet p bytes m : quiet m (easy_on w p bytes m).
Proof.
  unfold easy_on, warn_easy. destruct (EasyID3 w bytes) as [e|easy].
  - eapply quiet_trans; apply quiet_emit; discriminate.
  - eapply quiet_trans; [apply (quiet_emit (EvEasyID3 p)); discriminate|].
    apply primary_on_quiet.
Qed.

Lemma tagged_on_quiet p a bytes m : quiet m (tagged_on w p a bytes m).
Proof.
  unfold tagged_on.
  assert (Hc : quiet m (clear m)) by (apply quiet_same; reflexivity).
  destruct (has_tags a); [|exact Hc].
  eapply quiet_trans; [|apply easy_on_quiet].
  destruct (is_MP3 a); [|exact Hc].
  eapply quiet_trans; [exact Hc|apply cover_on_quiet].
Qed.

Lemma processing_failed_quiet p m : quiet m (snd (processing_failed p m)).
Proof.
  rewrite processing_failed_eq. simpl.
  destruct (bool_decide _).
  - exists [EvUnlink p; EvLog Error "Error processing audio file"].
    split; [reflexivity|]. intros u [H|[H|[]]]; discriminate.
  - apply quiet_emit. discriminate.
Qed.

Lemma finish_quiet p m : quiet m (snd (finish w p m)).
Proof.
  rewrite finish_eq. destruct (bool_decide _); [|apply quiet_refl].
  destruct (image_url m) as [q|].
  - destruct (bool_decide _); simpl.
    + exists [EvUnlink q; EvUnlink p]. split; [reflexivity|].
      intros u [H|[H|[]]]; discriminate.
    + exists [EvUnlink p]. split; [reflexivity|]. intros u [H|[]]; discriminate.
  - simpl. exists [EvUnlink p]. split; [reflexivity|]. intros u [H|[]]; discriminate.
Qed.

Lemma process_quiet p m bytes :
  fs (mem m) !! p = Some bytes -> quiet m (snd (process w p m)).
Proof.
  intros H. destruct (File w bytes) as [e|[a|]] eqn:HF.
  - rewrite (process_rejected w p m bytes e H HF).
    eapply quiet_trans; [apply (quiet_emit (EvFile p)); discriminate|].
    apply processing_failed_quiet.
  - rewrite (process_audio w p m bytes a H HF).
    assert (H1 : quiet m (tagged_on w p a bytes (emit (EvFile p) m))).
    { eapply quiet_trans; [apply (quiet_emit (EvFile p)); discriminate|].
      apply tagged_on_quiet. }
    pose proof (fallback_quiet a (tagged_on w p a bytes (emit (EvFile p) m))) as H2.
    destruct (fallback a _) as [[e|[]] m2]; simpl in H2.
    + eapply quiet_trans; [|apply processing_failed_quiet].
      eapply quiet_trans; eassumption.
    + pose proof (finish_quiet p m2) as H3.
      destruct (finish w p m2) as [[e|d] m3]; simpl in H3.
      * eapply quiet_trans; [|apply processing_failed_quiet].
        eapply quiet_trans; [|exact H3]. eapply quiet_trans; eassumption.
      * simpl. eapply quiet_trans; [|exact H3]. eapply quiet_trans; eassumption.
  - rewrite (process_unreadable w p m bytes H HF). simpl.
    eapply quiet_trans; apply quiet_emit; discriminate.
Qed.

End Quiet.

(** * The claims *)

(** C1, which the code does not meet.  When the cover picture of an MP3 has
    been written to its temporary file and the fallback then raises, the
    handler of the inner [try] unlinks the downloaded file only:
    [extract_metadata] returns [None] and the files it leaves are the files
    it found and the cover file. *)
Theorem cover_file_left_behind w url s r a id3 apic e m2 :
  requests_get w url = inr r ->
  ok r = true ->
  iter_error r = None ->
  File w (payload r) = inr (Some a) ->
  has_tags a = true ->
  is_MP3 a = true ->
  ID3 w (payload r) = inr id3 ->
  id3 !! "APIC:" = Some apic ->
  fallback a (after_primary w url s r a) = (inl e, m2) ->
  exists s',
    extract_metadata w url s = (None, s') /\
    fs s !! cover_path_of s r = None /\
    fs s' = <[cover_path_of s r := apic]> (fs s).
Proof.
  intros Hr Hok Hit HF Ht Hm Hid Hap Hfb.
  eexists. split; [exact (fallback_raises w url s r a e m2 Hr Hok Hit HF Hfb)|].
  destruct (cover_path_fresh s r) as [Hq Hne]. split; [exact Hq|].
  pose proof (fallback_keeps a (after_primary w url s r a)) as [Hfs _].
  rewrite Hfb in Hfs. simpl in Hfs.
  rewrite (after_primary_cover w url s r a id3 apic Ht Hm Hid Hap) in Hfs.
  rewrite processing_failed_eq. simpl. rewrite Hfs.
  rewrite bool_decide_eq_true_2.
  - simpl. rewrite Hfs, delete_insert_ne by congruence.
    now rewrite delete_insert_id by apply fresh_free.
  - rewrite lookup_insert_ne by exact Hne. rewrite lookup_insert_eq. eauto.
Qed.

Lemma cover_file_left_behind_witness :
  exists s',
    extract_metadata cover_and_odd_date "http://example.org/a.mp3" empty_store = (None, s') /\
    fs empty_store !! cover_path_of empty_store (Response 200 ["ID3"; "frames"] None) = None /\
    fs s' = <[cover_path_of empty_store (Response 200 ["ID3"; "frames"] None) := "jpeg"]> ∅.
Proof.
  eapply (cover_file_left_behind cover_and_odd_date "http://example.org/a.mp3" empty_store
            (Response 200 ["ID3"; "frames"] None) _ {[ "APIC:" := "jpeg" ]});
    vm_compute; reflexivity.
Defined.

(** C2. For a url with one of the two schemes whose body is no audio
    mutagen can parse ([File] raises on it, as it does on every such file
    named [.mp3]), [extract_metadata] returns [None], the route answers 500
    with the error of a failed extraction, and no temporary file remains: the
    handler of the inner [try] unlinks the downloaded file, which was not
    there before the call, so the files when the call returns, and when the
    route has answered, are the files before it. *)
Theorem unreadable_payload_cleaned w url s r e :
  startswith "http://" url || startswith "https://" url = true ->
  requests_get w url = inr r ->
  ok r = true ->
  iter_error r = None ->
  File w (payload r) = inl e ->
  let p := temp_path_of s in
  let s' := Store (fs s)
              (EvUnlink p :: EvLog Error "Error processing audio file"
               :: EvFile p :: EvCreate p :: EvGet url :: trace s) in
  extract_metadata w url s = (None, s') /\
  handle_extract_metadata w (inr (JObj [("url", JStr url)])) s =
    (error_response "Failed to extract metadata from the audio file" 500,
     logged Error "Failed to extract metadata" s') /\
  fs s !! p = None /\
  fs (snd (extract_metadata w url s)) !! p = None /\
  fs (snd (handle_extract_metadata w (inr (JObj [("url", JStr url)])) s)) = fs s.
Proof.
  intros Hu Hr Hok Hit HF p s'.
  assert (E : extract_metadata w url s = (None, s')).
  { rewrite extract_metadata_eq, Hr, Hok, Hit.
    rewrite (process_rejected w _ _ _ e (downloaded_file url r s) HF).
    rewrite processing_failed_eq. simpl.
    rewrite bool_decide_eq_true_2 by (rewrite lookup_insert_eq; eauto).
    simpl. unfold s', p. now rewrite delete_insert_id by apply fresh_free. }
  assert (R : handle_extract_metadata w (inr (JObj [("url", JStr url)])) s =
              (error_response "Failed to extract metadata from the audio file" 500,
               logged Error "Failed to extract metadata" s')).
  { rewrite (handle_usable w _ s url (usable_url_object url Hu)), E. reflexivity. }
  split; [exact E|]. split; [exact R|]. split; [apply fresh_free|]. split.
  - rewrite E. apply fresh_free.
  - rewrite R. reflexivity.
Qed.

Lemma unreadable_payload_cleaned_witness :
  extract_metadata text_file "http://example.org/notes.txt" empty_store =
    (None,
     Store ∅
       [EvUnlink (temp_path_of empty_store); EvLog Error "Error processing audio file";
        EvFile (temp_path_of empty_store); EvCreate (temp_path_of empty_store);
        EvGet "http://example.org/notes.txt"]) /\
  fst (handle_extract_metadata text_file
         (inr (JObj [("url", JStr "http://example.org/notes.txt")])) empty_store) =
    error_response "Failed to extract metadata from the audio file" 500 /\
  fs (snd (handle_extract_metadata text_file
             (inr (JObj [("url", JStr "http://example.org/notes.txt")])) empty_store)) = ∅.
Proof.
  destruct (unreadable_payload_cleaned text_file "http://example.org/notes.txt" empty_store
              (Response 200 ["hello, "; "world"] None) MutagenError)
    as (H1 & H2 & _ & _ & H5); try reflexivity.
  split; [exact H1|]. split; [now rewrite H2 | exact H5].
Defined.

(** C3, which the code does not meet.  On a file without tags ([audio.tags]
    is [None]) the primary strategy raises and is caught, and the fallback is
    still tried, as C3 says; but the fallback is under no [try] of its
    own: its first lookup raises into the handler of the inner [try], and
    [extract_metadata] returns [None], not the defaults. *)
Theorem untagged_file_fails w url s r a e :
  requests_get w url = inr r ->
  ok r = true ->
  iter_error r = None ->
  File w (payload r) = inr (Some a) ->
  has_tags a = true ->
  tags a = None ->
  EasyID3 w (payload r) = inl e ->
  exists s' earlier,
    extract_metadata w url s = (None, s') /\
    trace s' =
      EvUnlink (temp_path_of s)
      :: EvLog Error "Error processing audio file"
      :: EvFrame "TIT2"
      :: EvLog Warning "Failed to extract metadata using EasyID3"
      :: EvEasyID3 (temp_path_of s) :: earlier.
Proof.
  intros Hr Hok Hit HF Ht Hn He.
  destruct (after_primary_untagged w url s r a e Ht He) as (m & Hap & Htitle).
  assert (Hfb : fallback a (after_primary w url s r a) =
                (inl AttributeError, emit (EvFrame "TIT2") (after_primary w url s r a))).
  { unfold fallback, bind. rewrite fallback_title_eq, Hap. simpl title.
    rewrite Htitle, Ht. unfold raw_frame, lookup_error. rewrite Hn. reflexivity. }
  do 2 eexists.
  split; [exact (fallback_raises w url s r a _ _ Hr Hok Hit HF Hfb)|].
  rewrite processing_failed_eq. simpl.
  rewrite bool_decide_eq_true_2 by (rewrite after_primary_temp; eauto).
  rewrite Hap. reflexivity.
Qed.

Lemma untagged_file_fails_witness :
  exists s' earlier,
    extract_metadata untagged_mp3 "http://example.org/a.mp3" empty_store = (None, s') /\
    trace s' =
      EvUnlink (temp_path_of empty_store)
      :: EvLog Error "Error processing audio file"
      :: EvFrame "TIT2"
      :: EvLog Warning "Failed to extract metadata using EasyID3"
      :: EvEasyID3 (temp_path_of empty_store) :: earlier.
Proof.
  eapply (untagged_file_fails untagged_mp3 "http://example.org/a.mp3" empty_store
            (Response 200 ["mpeg frames"] None));
    vm_compute; reflexivity.
Defined.

(** C4, which the code does not meet.  In the primary strategy a date that
    [int] rejects is caught with every other exception of that [try]: the
    strategy returns.  In the fallback the same conversion is under no [try]:
    when the primary strategy has left no year and the raw TDRC frame holds a
    value that is true but is not a date [int] accepts, the error reaches the
    handler of the inner [try] and [extract_metadata] returns [None]. *)
Theorem word_date_fails_in_fallback w url s r a tg v rest :
  requests_get w url = inr r ->
  ok r = true ->
  iter_error r = None ->
  File w (payload r) = inr (Some a) ->
  has_tags a = true ->
  tags a = Some tg ->
  tg !! "TIT2" <> Some [] ->
  tg !! "TPE1" <> Some [] ->
  tg !! "TDRC" = Some (v :: rest) ->
  truthy v = true ->
  parsed_year v = None ->
  truthy (year (after_primary w url s r a)) = false ->
  (forall m bytes, fs (mem m) !! temp_path_of s = Some bytes ->
     fst (primary w (temp_path_of s) m) = inr tt) /\
  fst (extract_metadata w url s) = None.
Proof.
  intros Hr Hok Hit HF Ht Htg H2 H1 Hd Hv Hp Hy. split.
  { intros m bytes Hm. now rewrite (primary_eq w _ _ bytes Hm). }
  destruct (raw_frame_some a tg "TIT2" Htg H2) as [vt Hvt].
  destruct (raw_frame_some a tg "TPE1" Htg H1) as [va Hva].
  destruct (fallback_title_returns a (after_primary w url s r a) vt Hvt) as (mt & Et & Eyt).
  destruct (fallback_artist_returns a mt va Hva) as (ma & Ea & Eya).
  assert (Hraw : raw_frame a "TDRC" = Some v).
  { unfold raw_frame. rewrite Htg, Hd. reflexivity. }
  assert (Hfb : exists e, fallback a (after_primary w url s r a) =
                          (inl e, emit (EvFrame "TDRC") ma)).
  { unfold fallback, bind. rewrite Et, Ea, fallback_year_eq.
    rewrite Eya, Eyt, Hy, Ht, Hraw, Hv, Hp. simpl. eauto. }
  destruct Hfb as [e Hfb].
  now rewrite (fallback_raises w url s r a e _ Hr Hok Hit HF Hfb).
Qed.

Lemma word_date_fails_in_fallback_witness :
  fst (extract_metadata word_date_raw "http://example.org/a.ogg" empty_store) = None.
Proof.
  eapply (word_date_fails_in_fallback word_date_raw "http://example.org/a.ogg" empty_store
            (Response 200 ["OggS"] None) _
            {[ "TIT2" := [PyStr "Test Song"]; "TDRC" := [PyStr "unknown"] ]}
            (PyStr "unknown") []);
    try (vm_compute; reflexivity); vm_compute; discriminate.
Defined.

(** C5. Whenever [extract_metadata] returns a dict, its [image_url] is the
    placeholder constant, whatever the cover art step found or wrote, and the
    artist the tag strategies ended with is under the key [singer] (replaced
    by its default when it is not a true value); the dict has no key
    [artist]. *)
Theorem placeholder_and_singer w url s d s' :
  extract_metadata w url s = (Some d, s') ->
  exists r a m2,
    requests_get w url = inr r /\
    File w (payload r) = inr (Some a) /\
    fallback a (after_primary w url s r a) = (inr tt, m2) /\
    dict_get "image_url" d = Some (PyStr "https://via.placeholder.com/150") /\
    dict_get "singer" d = Some (py_or (artist m2) (PyStr "Unknown Artist")) /\
    dict_get "artist" d = None.
Proof.
  intros H. apply extract_some in H as (r & a & m2 & m3 & Hr & _ & _ & HF & Hfb & Hfin & _).
  apply finish_some in Hfin as ->.
  exists r, a, m2. repeat split; assumption || reflexivity.
Qed.

Lemma placeholder_and_singer_witness :
  exists r a m2,
    requests_get complete_mp3 "http://example.org/a.mp3" = inr r /\
    File complete_mp3 (payload r) = inr (Some a) /\
    fallback a (after_primary complete_mp3 "http://example.org/a.mp3" empty_store r a) =
      (inr tt, m2) /\
    dict_get "image_url"
      [("title", PyStr "Test Song"); ("singer", PyStr "Test Artist");
       ("image_url", PyStr PLACEHOLDER); ("year", PyInt 2020)] =
      Some (PyStr "https://via.placeholder.com/150") /\
    dict_get "singer"
      [("title", PyStr "Test Song"); ("singer", PyStr "Test Artist");
       ("image_url", PyStr PLACEHOLDER); ("year", PyInt 2020)] =
      Some (py_or (artist m2) (PyStr "Unknown Artist")) /\
    dict_get "artist"
      [("title", PyStr "Test Song"); ("singer", PyStr "Test Artist");
       ("image_url", PyStr PLACEHOLDER); ("year", PyInt 2020)] = None.
Proof.
  eapply (placeholder_and_singer complete_mp3 "http://example.org/a.mp3" empty_store).
  vm_compute. reflexivity.
Defined.






(** Against C8 as it is stated: 304 is no success status, and a response
    with it is not refused.  [response.ok] is true for it, so the body is
    written to a temporary file, the tag readers are called and the call
    returns a dict. *)
Lemma not_modified_is_parsed :
  requests_get not_modified "http://example.org/a.mp3" =
    inr (Response 304 ["ID3"; "frames"] None) /\
  fst (extract_metadata not_modified "http://example.org/a.mp3" empty_store) =
    Some [("title", PyStr "Test Song"); ("singer", PyStr "Test Artist");
          ("image_url", PyStr PLACEHOLDER); ("year", PyInt 2020)] /\
  In (EvCreate (temp_path_of empty_store))
    (trace (snd (extract_metadata not_modified "http://example.org/a.mp3" empty_store))) /\
  In (EvEasyID3 (temp_path_of empty_store))
    (trace (snd (extract_metadata not_modified "http://example.org/a.mp3" empty_store))).
Proof.
  split; [reflexivity|]. split; [vm_compute; reflexivity|]. split; vm_compute; tauto.
Qed.

(** C8, amended.  When the status of the response is an error code, 400 to
    599, [extract_metadata] returns [None], the only calls it has made are
    the request and the error log that blames the download, and the files
    are as before: no temporary file was created and no tag reader was called,
    so nothing is left to clean up.  With any other status, that of a success
    or not, the body is taken: the temporary file is created right after the
    request. *)
Theorem error_status_refused w url s r :
  requests_get w url = inr r ->
  (400 <= status_code r < 600 ->
   extract_metadata w url s =
   (None, Store (fs s) (EvLog Error "Failed to download file" :: EvGet url :: trace s))) /\
  (~ 400 <= status_code r < 600 ->
   exists evs,
     trace (snd (extract_metadata w url s)) =
     evs ++ EvCreate (temp_path_of s) :: EvGet url :: trace s).
Proof.
  intros Hr. rewrite extract_metadata_eq, Hr. split.
  - intros Hcode. apply ok_false in Hcode. now rewrite Hcode.
  - intros Hcode. destruct (ok r) eqn:Hok; [|now apply ok_false in Hok].
    destruct (iter_error r).
    { exists [EvLog Error "Error downloading file"]. reflexivity. }
    destruct (process_quiet w (temp_path_of s) (downloaded url r s) (payload r)
                (downloaded_file url r s)) as (evs & Htr & _).
    exists evs.
    destruct (process w (temp_path_of s) (downloaded url r s)) as [[e|res] m]; exact Htr.
Qed.

Lemma error_status_refused_witness :
  extract_metadata not_found "http://example.org/a.mp3" empty_store =
    (None, Store ∅ [EvLog Error "Failed to download file"; EvGet "http://example.org/a.mp3"]) /\
  exists evs,
    trace (snd (extract_metadata not_modified "http://example.org/a.mp3" empty_store)) =
    evs ++ [EvCreate (temp_path_of empty_store); EvGet "http://example.org/a.mp3"].
Proof.
  split.
  - apply (proj1 (error_status_refused not_found "http://example.org/a.mp3" empty_store
                    (Response 404 ["Not Found"] None) eq_refl)).
    simpl. lia.
  - apply (proj2 (error_status_refused not_modified "http://example.org/a.mp3" empty_store
                    (Response 304 ["ID3"; "frames"] None) eq_refl)).
    simpl. lia.
Defined.

(** Against C9 as it is stated: a body that is the number 5 has no url
    field, and the route answers it with 500, not 400.  The membership test
    [in] raises on a number and the handler of the route catches it. *)
Lemma number_body_gets_500 :
  url_field (JNum 5) = None /\
  handle_extract_metadata not_found (inr (JNum 5)) empty_store =
    (error_response "An unexpected error occurred" 500,
     Store ∅ [EvLog Error "Unexpected error in extract_metadata route"]).
Proof. split; vm_compute; reflexivity. Qed.

(** C9, amended.  A request that does not carry, under the key [url] of a
    JSON object, a string that starts with "http://" or "https://" is
    answered with an error and [extract_metadata] is not called: the files
    are as before and the only call made is one to the error log.  Which
    error is told by the shape of the request, as [refused] has it: 400 for
    a body that is not a true value, for an object without a url or with a
    url that is a string, and for a string or a list in which "url" does not
    occur; 500 when [get_json] raises, for a body that is true or a number
    other than 0, for a string or a list in which "url" occurs, and for an
    object whose url is no string. *)
Theorem request_without_url_refused w req s :
  usable_url req = None ->
  handle_extract_metadata w req s =
  (error_response (message (refused req)) (status (refused req)),
   Store (fs s) (EvLog Error (note (refused req)) :: trace s)).
Proof.
  intros H. unfold handle_extract_metadata, handle_extract_metadata_body.
  destruct req as [e|data]; [reflexivity|].
  destruct data as [|b|z|str|l|o]; simpl in *.
  - reflexivity.
  - destruct b; reflexivity.
  - mrun. destruct (Z.eqb z 0); reflexivity.
  - mrun. destruct (String.eqb str ""); simpl; [reflexivity|].
    destruct (contains "url" str); reflexivity.
  - mrun. destruct l as [|x l']; simpl; [reflexivity|].
    destruct (_ || _); reflexivity.
  - mrun. destruct o as [|kv o']; simpl; [reflexivity|].
    remember (kv :: o') as o. destruct (member "url" o) as [v|] eqn:Hm.
    + rewrite bool_decide_eq_true_2 by (eexists; reflexivity). simpl.
      destruct v; simpl; try reflexivity.
      destruct (startswith "http://" _ || startswith "https://" _); [discriminate|].
      reflexivity.
    + rewrite bool_decide_eq_false_2 by (intros [? ?]; discriminate). reflexivity.
Qed.

Lemma request_without_url_refused_witness :
  handle_extract_metadata complete_mp3 (inr (JObj [("url", JStr "ftp://example.org/a.mp3")]))
    empty_store =
  (error_response "Invalid URL format" 400, Store ∅ [EvLog Error "Invalid URL format"]) /\
  handle_extract_metadata complete_mp3 (inr (JStr "the url")) empty_store =
  (error_response "An unexpected error occurred" 500,
   Store ∅ [EvLog Error "Unexpected error in extract_metadata route"]).
Proof.
  split.
  - apply (request_without_url_refused complete_mp3
             (inr (JObj [("url", JStr "ftp://example.org/a.mp3")])) empty_store).
    reflexivity.
  - apply (request_without_url_refused complete_mp3 (inr (JStr "the url")) empty_store).
    reflexivity.
Defined.



(** * More properties of the call and of the route *)

(** ** When the call returns a dict, and what it leaves otherwise *)

(** X1. [extract_metadata] returns a dict exactly when the response is ok,
    the iteration over its body does not raise, mutagen recognises a format
    and the fallback returns; the dict is then built from the variables the
    fallback leaves.  The cleanup of the success path never raises. *)
Theorem returns_dict_exactly_when w url s d :
  fst (extract_metadata w url s) = Some d <->
  exists r a m2,
    requests_get w url = inr r /\ ok r = true /\ iter_error r = None /\
    File w (payload r) = inr (Some a) /\
    fallback a (after_primary w url s r a) = (inr tt, m2) /\
    d = result_dict w m2.
Proof.
  rewrite extract_metadata_outcome. unfold outcome. split.
  - destruct (requests_get w url) as [e|r] eqn:Hr; [discriminate|].
    destruct (ok r) eqn:Hok; [|discriminate].
    destruct (iter_error r) eqn:Hit; [discriminate|].
    destruct (File w (payload r)) as [e|[a|]] eqn:HF; try discriminate.
    destruct (fallback a (after_primary w url s r a)) as [[e|[]] m2] eqn:Hfb;
      [discriminate|].
    intros [= <-]. exists r, a, m2. auto 10.
  - intros (r & a & m2 & -> & -> & -> & -> & -> & ->). reflexivity.
Qed.

Lemma returns_dict_exactly_when_witness :
  exists r a m2,
    requests_get complete_mp3 "http://example.org/a.mp3" = inr r /\ ok r = true /\
    iter_error r = None /\
    File complete_mp3 (payload r) = inr (Some a) /\
    fallback a (after_primary complete_mp3 "http://example.org/a.mp3" empty_store r a) =
      (inr tt, m2) /\
    [("title", PyStr "Test Song"); ("singer", PyStr "Test Artist");
     ("image_url", PyStr PLACEHOLDER); ("year", PyInt 2020)] = result_dict complete_mp3 m2.
Proof.
  apply (returns_dict_exactly_when complete_mp3 "http://example.org/a.mp3" empty_store).
  vm_compute. reflexivity.
Defined.

(** X2. A call that returns a dict leaves the files as it found them: the
    downloaded file and, when one was written, the cover file are both
    unlinked. *)
Theorem success_restores_files w url s d s' :
  extract_metadata w url s = (Some d, s') -> fs s' = fs s.
Proof.
  intros H. apply extract_some in H as (r & a & m2 & m3 & _ & _ & _ & _ & Hfb & Hfin & ->).
  destruct (finish_after_fallback w url s r a m2 Hfb) as (m3' & Hfin' & Hfs).
  rewrite Hfin in Hfin'. injection Hfin' as _ <-. exact Hfs.
Qed.

Lemma success_restores_files_witness :
  fs (snd (extract_metadata complete_mp3 "http://example.org/a.mp3" empty_store)) =
  fs empty_store.
Proof.
  eapply (success_restores_files complete_mp3 "http://example.org/a.mp3" empty_store).
  vm_compute. reflexivity.
Defined.

(** X3. When [requests.get] raises, [extract_metadata] returns [None]; the
    files are as before, and the only calls made are the request and the
    error log of the outer handler. *)
Theorem request_exception w url s e :
  requests_get w url = inl e ->
  extract_metadata w url s =
  (None, Store (fs s) (EvLog Error "Error downloading file" :: EvGet url :: trace s)).
Proof.
  intros H. rewrite extract_metadata_eq, H. reflexivity.
Qed.

Lemma request_exception_witness :
  extract_metadata unreachable "http://example.org/a.mp3" empty_store =
  (None, Store ∅ [EvLog Error "Error downloading file"; EvGet "http://example.org/a.mp3"]).
Proof.
  apply (request_exception unreachable _ empty_store RequestException). reflexivity.
Defined.

(** X4. When the iteration over the body of an ok response raises, the outer
    handler returns [None] without unlinking anything: the file with the
    chunks written so far, which was not there before, is left behind, and no
    reader of mutagen has been called. *)
Theorem broken_stream_leaves_file w url s r e :
  requests_get w url = inr r ->
  ok r = true ->
  iter_error r = Some e ->
  extract_metadata w url s =
    (None,
     Store (<[temp_path_of s := payload r]> (fs s))
       (EvLog Error "Error downloading file"
        :: EvCreate (temp_path_of s) :: EvGet url :: trace s)) /\
  fs s !! temp_path_of s = None.
Proof.
  intros Hr Hok Hit. split; [|apply fresh_free].
  rewrite extract_metadata_eq, Hr, Hok, Hit. reflexivity.
Qed.

Lemma broken_stream_leaves_file_witness :
  extract_metadata broken_stream "http://example.org/a.mp3" empty_store =
    (None,
     Store (<[temp_path_of empty_store := "ID3fra"]> ∅)
       [EvLog Error "Error downloading file";
        EvCreate (temp_path_of empty_store); EvGet "http://example.org/a.mp3"]) /\
  fs empty_store !! temp_path_of empty_store = None.
Proof.
  apply (broken_stream_leaves_file broken_stream "http://example.org/a.mp3" empty_store
           (Response 200 ["ID3"; "fra"] (Some RequestException)) RequestException);
    reflexivity.
Defined.

(** X5. When [File(temp_path)] raises, the handler of the inner [try] logs
    the error, unlinks the downloaded file and returns [None]: the files are
    as before the call. *)
Theorem unreadable_exception_cleaned w url s r e :
  requests_get w url = inr r ->
  ok r = true ->
  iter_error r = None ->
  File w (payload r) = inl e ->
  extract_metadata w url s =
  (None,
   Store (fs s)
     (EvUnlink (temp_path_of s) :: EvLog Error "Error processing audio file"
      :: EvFile (temp_path_of s) :: EvCreate (temp_path_of s) :: EvGet url :: trace s)).
Proof.
  intros Hr Hok Hit HF. rewrite extract_metadata_eq, Hr, Hok, Hit.
  rewrite (process_rejected w _ _ _ e (downloaded_file url r s) HF).
  rewrite processing_failed_eq. simpl.
  rewrite bool_decide_eq_true_2 by (rewrite lookup_insert_eq; eauto).
  simpl. now rewrite delete_insert_id by apply fresh_free.
Qed.

Lemma unreadable_exception_cleaned_witness :
  extract_metadata corrupt_file "http://example.org/a.mp3" empty_store =
  (None,
   Store ∅
     [EvUnlink (temp_path_of empty_store); EvLog Error "Error processing audio file";
      EvFile (temp_path_of empty_store); EvCreate (temp_path_of empty_store);
      EvGet "http://example.org/a.mp3"]).
Proof.
  apply (unreadable_exception_cleaned corrupt_file "http://example.org/a.mp3" empty_store
           (Response 200 ["ID3"; "garbage"] None) MutagenError);
    reflexivity.
Defined.

(** X6. Whatever happens, a call leaves the files it found untouched and at
    most one file more: the downloaded file or the cover file. *)
Theorem leaves_at_most_one_file w url s :
  (fs (snd (extract_metadata w url s)) = fs s \/
   (exists c, fs (snd (extract_metadata w url s)) = <[temp_path_of s := c]> (fs s)) \/
   (exists r c, requests_get w url = inr r /\
      fs (snd (extract_metadata w url s)) = <[cover_path_of s r := c]> (fs s))) /\
  (forall x, is_Some (fs s !! x) -> fs (snd (extract_metadata w url s)) !! x = fs s !! x).
Proof.
  assert (H : fs (snd (extract_metadata w url s)) = fs s \/
   (exists c, fs (snd (extract_metadata w url s)) = <[temp_path_of s := c]> (fs s)) \/
   (exists r c, requests_get w url = inr r /\
      fs (snd (extract_metadata w url s)) = <[cover_path_of s r := c]> (fs s))).
  { rewrite extract_metadata_eq.
    destruct (requests_get w url) as [e|r] eqn:Hr; [now left|].
    destruct (ok r); [|now left].
    destruct (iter_error r); [right; left; simpl; eauto|].
    pose proof (downloaded_file url r s) as Hfile.
    destruct (File w (payload r)) as [e|[a|]] eqn:HF.
    - rewrite (process_rejected w _ _ _ e Hfile HF), processing_failed_eq. simpl.
      rewrite bool_decide_eq_true_2 by (rewrite lookup_insert_eq; eauto).
      left. simpl. now rewrite delete_insert_id by apply fresh_free.
    - rewrite (process_audio w _ _ _ a Hfile HF). fold (after_primary w url s r a).
      destruct (fallback a (after_primary w url s r a)) as [[e|[]] m2] eqn:Hfb.
      + pose proof (fallback_keeps a (after_primary w url s r a)) as [Hfs Him].
        rewrite Hfb in Hfs, Him. simpl in Hfs, Him.
        pose proof (after_primary_files w url s r a) as Hap.
        pose proof (after_primary_temp w url s r a) as Htemp.
        destruct (cover_path_fresh s r) as [Hq Hne].
        rewrite processing_failed_eq. simpl. rewrite Hfs.
        rewrite bool_decide_eq_true_2 by (rewrite Htemp; eauto). simpl. rewrite Hfs.
        destruct (image_url (after_primary w url s r a)) as [q|].
        * destruct Hap as [-> [apic ->]]. right; right. exists r, apic. split; [reflexivity|].
          rewrite delete_insert_ne by congruence.
          now rewrite delete_insert_id by apply fresh_free.
        * left. rewrite Hap. now rewrite delete_insert_id by apply fresh_free.
      + destruct (finish_after_fallback w url s r a m2 Hfb) as (m3 & -> & Hfs). now left.
    - rewrite (process_unreadable w _ _ _ Hfile HF). right; left. simpl. eauto. }
  split; [exact H|].
  intros x [c Hx]. destruct H as [->|[[c' ->]|(r & c' & _ & ->)]]; [reflexivity| |].
  - apply lookup_insert_ne. intros <-. unfold temp_path_of in Hx.
    rewrite fresh_free in Hx. discriminate.
  - apply lookup_insert_ne. intros <-.
    destruct (cover_path_fresh s r) as [Hq _]. rewrite Hq in Hx. discriminate.
Qed.

(** X7. What [extract_metadata] returns does not depend on the cover art
    step: with any other reader in the place of [ID3], one that raises, one
    that finds a picture or one that finds none, the call returns the same
    dict or the same [None]. *)
Theorem cover_step_does_not_matter f w url s :
  fst (extract_metadata (with_ID3 f w) url s) = fst (extract_metadata w url s).
Proof.
  rewrite !extract_metadata_outcome. unfold outcome. simpl requests_get. simpl File.
  destruct (requests_get w url) as [e|r]; [reflexivity|].
  destruct (ok r); [|reflexivity].
  destruct (iter_error r); [reflexivity|].
  destruct (File w (payload r)) as [e|[a|]]; try reflexivity.
  destruct (fallback_vars a _ _ (after_primary_with_ID3 f w url s r a)) as [E Hv].
  destruct (fallback a (after_primary (with_ID3 f w) url s r a)) as [[e1|[]] m1],
           (fallback a (after_primary w url s r a)) as [[e2|[]] m2];
    simpl in E, Hv; try discriminate; [reflexivity|].
  f_equal. unfold result_dict at 1. simpl now_year. now apply result_dict_vars.
Qed.

(** X8. The year read from a date is never negative: the part before the
    first dash cannot hold a minus sign.  So when the year of the clock is
    positive, the year of every dict [extract_metadata] returns is a positive
    integer. *)
Theorem returned_year_positive w url s d s' :
  extract_metadata w url s = (Some d, s') ->
  0 < now_year w ->
  (forall v z, parsed_year v = Some z -> 0 <= z) /\
  exists y, dict_get "year" d = Some (PyInt y) /\ 0 < y.
Proof.
  intros H Hnow. split; [exact parsed_year_nonneg|].
  apply extract_some in H as (r & a & m2 & m3 & _ & _ & _ & _ & Hfb & Hfin & _).
  apply finish_some in Hfin as ->.
  pose proof (fallback_year_ok _ _ _ Hfb (after_primary_year_ok w url s r a)) as Hy.
  change (dict_get "year" _) with (Some (py_or (year m2) (PyInt (now_year w)))).
  destruct Hy as [->|(z & -> & Hz)]; [exists (now_year w); auto|].
  unfold py_or. simpl. destruct (Z.eqb z 0) eqn:E; simpl.
  - exists (now_year w). auto.
  - exists z. split; [reflexivity|]. apply Z.eqb_neq in E. lia.
Qed.

Lemma returned_year_positive_witness :
  exists y,
    dict_get "year"
      [("title", PyStr "Test Song"); ("singer", PyStr "Test Artist");
       ("image_url", PyStr PLACEHOLDER); ("year", PyInt 2020)] = Some (PyInt y) /\ 0 < y.
Proof.
  eapply (returned_year_positive complete_mp3 "http://example.org/a.mp3" empty_store).
  - vm_compute. reflexivity.
  - reflexivity.
Defined.

(** X9. Only the part of a date before its first dash counts: a date
    [a-b], where [a] has no dash, gives the year [a] alone gives, whatever
    [b] is. *)
Theorem year_from_first_part a b :
  no_dash a = true ->
  parsed_year (PyStr (String.append a (String "-" b))) = parsed_year (PyStr a).
Proof.
  intros H. unfold parsed_year.
  now rewrite before_dash_append, before_dash_no_dash.
Qed.

Lemma year_from_first_part_witness :
  parsed_year (PyStr "2020-05-01") = parsed_year (PyStr "2020").
Proof. apply (year_from_first_part "2020" "05-01"). reflexivity. Defined.

(** X10. Whenever the route answers 200, the request carried a url with one
    of the two schemes, [extract_metadata] was called on that url and returned
    a dict, and the body is that dict as JSON: an object with the four keys
    title, singer, image_url and year, as the dict has them, no member of
    which is null, and whose image_url is the placeholder.  The files are as before the request. *)
Theorem ok_answer w req s body s' :
  handle_extract_metadata w req s = ((body, 200), s') ->
  exists u d o,
    usable_url req = Some u /\
    extract_metadata w u s = (Some d, s') /\
    jsonify d = inr body /\
    body = JObj o /\
    map fst o = ["title"; "singer"; "image_url"; "year"] /\
    member "image_url" o = Some (JStr PLACEHOLDER) /\
    (forall k v, member k o = Some v -> v <> JNull) /\
    fs s' = fs s.
Proof.
  intros H. destruct (usable_url req) as [u|] eqn:Hu.
  2: { destruct (handle_unusable_error w req s Hu) as (msg & code & E & Hc).
       rewrite H in E. simpl in E. injection E as _ E. now destruct Hc. }
  rewrite (handle_usable w req s u Hu) in H.
  destruct (extract_metadata w u s) as [[d|] s1] eqn:He; [|discriminate].
  destruct (jsonify d) as [e|body'] eqn:Hj; [discriminate|].
  injection H as <- <-.
  pose proof (success_leaves_no_file w u s d s1 He) as Hfs.
  pose proof He as He'.
  apply extract_some in He' as (r & a & m2 & m3 & _ & _ & _ & _ & Hfb & Hfin & _).
  apply finish_some in Hfin. subst d.
  pose proof (py_or_not_none (title m2) (PyStr "Unknown Title")) as Ht.
  pose proof (py_or_not_none (artist m2) (PyStr "Unknown Artist")) as Ha.
  pose proof (py_or_not_none (year m2) (PyInt (now_year w))) as Hy.
  unfold jsonify in Hj. simpl in Hj.
  destruct (py_or (title m2) _) as [|t|t|]; [now destruct Ht| | |];
    destruct (py_or (artist m2) _) as [|ar|ar|]; try (now destruct Ha);
    destruct (py_or (year m2) _) as [|y|y|]; try (now destruct Hy);
    try discriminate Hj; injection Hj as <-;
    (exists u; eexists; eexists; split; [reflexivity|]; split; [exact He|];
     split; [reflexivity|]; split; [reflexivity|]; split; [reflexivity|];
     split; [reflexivity|]; split; [|exact Hfs];
     intros k v; unfold member;
     repeat match goal with
            | |- context [String.eqb k ?x] => destruct (String.eqb k x)
            end; intros [= <-]; discriminate).
Qed.

Lemma ok_answer_witness :
  exists u d o,
    usable_url (inr (JObj [("url", JStr "http://example.org/a.mp3")])) = Some u /\
    extract_metadata complete_mp3 u empty_store =
      (Some d, snd (handle_extract_metadata complete_mp3
                      (inr (JObj [("url", JStr "http://example.org/a.mp3")])) empty_store)) /\
    jsonify d =
      inr (JObj [("title", JStr "Test Song"); ("singer", JStr "Test Artist");
                 ("image_url", JStr PLACEHOLDER); ("year", JNum 2020)]) /\
    JObj [("title", JStr "Test Song"); ("singer", JStr "Test Artist");
          ("image_url", JStr PLACEHOLDER); ("year", JNum 2020)] = JObj o /\
    map fst o = ["title"; "singer"; "image_url"; "year"] /\
    member "image_url" o = Some (JStr PLACEHOLDER) /\
    (forall k v, member k o = Some v -> v <> JNull) /\
    fs (snd (handle_extract_metadata complete_mp3
               (inr (JObj [("url", JStr "http://example.org/a.mp3")])) empty_store)) =
    fs empty_store.
Proof.
  apply (ok_answer complete_mp3 (inr (JObj [("url", JStr "http://example.org/a.mp3")]))
           empty_store).
  vm_compute. reflexivity.
Defined.

(** X11. A title the primary strategy has read is not lost when the rest of
    that strategy raises (an empty list for the artist, a date that is no
    number): when [EasyID3] gives a first title that is a true value, every
    dict the call returns has it as its title; the same for the artist when
    the title lookup returned. *)
Theorem easy_values_survive w url s d s' r a easy t :
  extract_metadata w url s = (Some d, s') ->
  requests_get w url = inr r ->
  File w (payload r) = inr (Some a) ->
  has_tags a = true ->
  EasyID3 w (payload r) = inr easy ->
  easy_first easy "title" = Some t ->
  (truthy t = true -> dict_get "title" d = Some t) /\
  (forall ar, easy_first easy "artist" = Some ar -> truthy ar = true ->
     dict_get "singer" d = Some ar).
Proof.
  intros H Hr HF Htags He Ht.
  apply extract_some in H as (r' & a' & m2 & m3 & Hr' & _ & _ & HF' & Hfb & Hfin & _).
  rewrite Hr in Hr'. injection Hr' as <-. rewrite HF in HF'. injection HF' as <-.
  apply finish_some in Hfin as ->.
  destruct (fallback_fields a _ m2 (PyStr "Unknown Title") (PyStr "Unknown Artist")
              (PyInt (now_year w)) Hfb) as (evs & _ & Hft & Hfa & _).
  split.
  - intros Htrue. unfold field_rule in Hft.
    rewrite (after_primary_title w url s r a easy t Htags He Ht), Htrue in Hft.
    apply Hft.
  - intros ar Har Htrue. unfold field_rule in Hfa.
    rewrite (after_primary_artist w url s r a easy t ar Htags He Ht Har), Htrue in Hfa.
    apply Hfa.
Qed.

Lemma easy_values_survive_witness :
  dict_get "title"
    [("title", PyStr "Test Song"); ("singer", PyStr "Unknown Artist");
     ("image_url", PyStr PLACEHOLDER); ("year", PyInt 2024)] = Some (PyStr "Test Song").
Proof.
  eapply (easy_values_survive artist_list_empty "http://example.org/a.mp3" empty_store _ _
            (Response 200 ["OggS"; "TAG"] None) _
            {[ "title" := [PyStr "Test Song"]; "artist" := [] ]} (PyStr "Test Song"));
    vm_compute; reflexivity.
Defined.

(** X12. Every call makes exactly one request, to the url it is given, and
    makes it first: what the call adds to the trace ends with that request
    and holds no other. *)
Theorem one_request_per_call w url s :
  exists evs,
    trace (snd (extract_metadata w url s)) = evs ++ EvGet url :: trace s /\
    forall u, ~ In (EvGet u) evs.
Proof.
  rewrite extract_metadata_eq.
  destruct (requests_get w url) as [e|r].
  { exists [EvLog Error "Error downloading file"]. split; [reflexivity|].
    intros u [H|[]]; discriminate. }
  destruct (ok r).
  2: { exists [EvLog Error "Failed to download file"]. split; [reflexivity|].
       intros u [H|[]]; discriminate. }
  destruct (iter_error r).
  { exists [EvLog Error "Error downloading file"; EvCreate (temp_path_of s)].
    split; [reflexivity|]. intros u [H|[H|[]]]; discriminate. }
  destruct (process_quiet w _ _ _ (downloaded_file url r s)) as (evs & Htr & Hno).
  exists (evs ++ [EvCreate (temp_path_of s)]). split.
  - destruct (process w _ _) as [[e|res] m]; simpl in *; rewrite Htr;
      now rewrite <- app_assoc.
  - intros u [H|[H|[]]]%in_app_or; [now apply (Hno u)|discriminate].
Qed.

(** * The catalog routes: what they answer and what they store *)

Section CatalogFacts.
Import Catalog.

Lemma json_in_member k o b :
  json_in k (JObj o) = inr b -> if b then is_Some (member k o) else member k o = None.
Proof.
  intros [= <-]. destruct (member k o) eqn:E.
  - rewrite bool_decide_eq_true_2 by eauto. eauto.
  - rewrite bool_decide_eq_false_2; [reflexivity|]. intros [x H]. discriminate.
Qed.

Lemma json_in_present k o v : member k o = Some v -> json_in k (JObj o) = inr true.
Proof. intros H. simpl. rewrite H. now rewrite bool_decide_eq_true_2 by eauto. Qed.

Lemma json_in_absent k o : member k o = None -> json_in k (JObj o) = inr false.
Proof.
  intros H. simpl. rewrite H. rewrite bool_decide_eq_false_2; [reflexivity|].
  intros [x Hx]. discriminate.
Qed.

(** The loop over the required fields returns at the first field the body
    does not have, and falls through when it has them all. *)
Lemma first_missing_none data fields :
  first_missing data fields = inr None ->
  forall f, In f fields -> json_in f data = inr true.
Proof.
  induction fields as [|g rest IH]; intros H f Hf; [destruct Hf|].
  cbn [first_missing] in H.
  destruct (json_in g data) as [e|[]] eqn:Hg; cbn in H; try discriminate.
  destruct Hf as [<-|Hf]; auto.
Qed.

Lemma first_missing_at data pre f post :
  (forall g, In g pre -> json_in g data = inr true) ->
  json_in f data = inr false ->
  first_missing data (pre ++ f :: post) = inr (Some f).
Proof.
  intros Hpre Hf. induction pre as [|g pre IH]; cbn [first_missing app].
  - now rewrite Hf.
  - rewrite (Hpre g) by now left. cbn. apply IH. intros h Hh. apply Hpre. now right.
Qed.

Lemma first_missing_all data fields :
  (forall g, In g fields -> json_in g data = inr true) ->
  first_missing data fields = inr None.
Proof.
  intros H. induction fields as [|g rest IH]; cbn [first_missing]; [reflexivity|].
  rewrite (H g) by now left. cbn. apply IH. intros h Hh. apply H. now right.
Qed.

(** A body that passes the loop and is indexed by a field name is an
    object. *)
Lemma json_item_object data k v : json_item data k = inr v -> exists o, data = JObj o /\ member k o = Some v.
Proof.
  destruct data; try discriminate. simpl. destruct (member k o) eqn:E; [|discriminate].
  intros [= <-]. eauto.
Qed.

(** What the [try] of [add_song] does with an object that has the five
    fields. *)
Lemma add_song_try_complete db o c t si su iu yv :
  member "title" o = Some t -> member "singer" o = Some si ->
  member "song_url" o = Some su -> member "image_url" o = Some iu ->
  member "year" o = Some yv ->
  add_song_try db (inr (JObj o)) c =
  match json_int yv with
  | inl e => inl e
  | inr y =>
      match insert_row db (songs c) (Song t si su iu y) with
      | inl e => inl e
      | inr new =>
          inr ((JObj [("message", JStr "Song added successfully");
                      ("id", JNum (Z.of_N new.1))], 201),
               set_songs (<[new.1 := new.2]> (songs c)) c)
      end
  end.
Proof.
  intros Ht Hsi Hsu Hiu Hy. unfold add_song_try.
  cbn [from_python mbind raised_bind].
  assert (Hne : json_truthy (JObj o) = true).
  { destruct o; [discriminate Ht|reflexivity]. }
  rewrite Hne. cbn [negb].
  rewrite (first_missing_all (JObj o) required_fields).
  2: { intros g Hg. unfold required_fields in Hg. simpl in Hg.
       destruct Hg as [<-|[<-|[<-|[<-|[<-|[]]]]]]; eapply json_in_present; eassumption. }
  cbn [mbind raised_bind json_item]. rewrite Ht, Hsi, Hsu, Hiu, Hy. reflexivity.
Qed.

(** What the [try] of [add_song] leaves when it returns: a 400 and the
    state as it was, or a 201. *)
Lemma add_song_try_inr db req c r c' :
  add_song_try db req c = inr (r, c') ->
  (r.2 = 400 /\ c' = c) \/
  exists data x id stored yv,
    req = inr data /\
    field data "title" = Some (title x) /\ field data "singer" = Some (singer x) /\
    field data "song_url" = Some (song_url x) /\ field data "image_url" = Some (image_url x) /\
    field data "year" = Some yv /\ json_int yv = inr (year x) /\
    insert_row db (songs c) x = inr (id, stored) /\
    r = (JObj [("message", JStr "Song added successfully"); ("id", JNum (Z.of_N id))], 201) /\
    c' = set_songs (<[id := stored]> (songs c)) c.
Proof.
  unfold add_song_try. destruct req as [e|data]; cbn [from_python mbind raised_bind]; [discriminate|].
  destruct (json_truthy data); cbn [negb].
  2: { intros [= <- <-]. now left. }
  destruct (first_missing data required_fields) as [e|[f|]] eqn:Hm;
    cbn [mbind raised_bind]; [discriminate| |].
  { intros [= <- <-]. now left. }
  destruct (json_item data "title") as [e|t] eqn:Ht; cbn [from_python mbind raised_bind]; [discriminate|].
  destruct (json_item data "singer") as [e|si] eqn:Hsi; cbn [from_python mbind raised_bind]; [discriminate|].
  destruct (json_item data "song_url") as [e|su] eqn:Hsu; cbn [from_python mbind raised_bind]; [discriminate|].
  destruct (json_item data "image_url") as [e|iu] eqn:Hiu; cbn [from_python mbind raised_bind]; [discriminate|].
  destruct (json_item data "year") as [e|yv] eqn:Hy; cbn [from_python mbind raised_bind]; [discriminate|].
  destruct (json_int yv) as [e|y] eqn:Hint; cbn [mbind raised_bind]; [discriminate|].
  destruct (insert_row db (songs c) (Song t si su iu y)) as [e|[id stored]] eqn:Hins;
    cbn [mbind raised_bind]; [discriminate|].
  intros [= <- <-]. right.
  apply json_item_object in Ht as (o & -> & Ht).
  apply json_item_object in Hsi as (o1 & [= <-] & Hsi).
  apply json_item_object in Hsu as (o1 & [= <-] & Hsu).
  apply json_item_object in Hiu as (o1 & [= <-] & Hiu).
  apply json_item_object in Hy as (o1 & [= <-] & Hy).
  exists (JObj o), (Song t si su iu y), id, stored, yv. simpl. auto 12.
Qed.

(** ** The sample engine *)

Lemma below_max (k : N) (l : list N) : In k l -> (k <= foldr N.max 0%N l)%N.
Proof.
  induction l as [|x l IH]; intros H; [destruct H|]. simpl.
  destruct H as [->|H]; [lia|]. specialize (IH H). lia.
Qed.

Lemma next_id_free (t : gmap N song) : t !! next_id t = None.
Proof.
  destruct (t !! next_id t) as [x|] eqn:E; [|reflexivity]. exfalso.
  apply elem_of_map_to_list in E.
  assert (H : In (next_id t) (map fst (map_to_list t))).
  { apply in_map_iff. exists (next_id t, x). split; [reflexivity|].
    now apply list_elem_of_In. }
  apply below_max in H. unfold next_id in H. lia.
Qed.

Lemma plain_engine_primary_key : primary_key plain_engine.
Proof.
  intros t x id y. simpl. destruct (storable x); [|discriminate].
  intros [= <- _]. apply next_id_free.
Qed.

Lemma plain_engine_lists_rows : lists_rows plain_engine.
Proof. intros t. reflexivity. Qed.

(** ** [add_song] *)

(** X13. Whenever [add_song] answers 201, the body of the request was an
    object with the five required fields whose year [int] accepts, the engine
    stored the row made of them, and the id in the answer is the id of that
    row; with an engine that numbers new rows apart from the old, the table
    afterwards is the table before and this one row more, and nothing was
    logged. *)
Theorem add_song_created db req c body c' :
  add_song db req c = ((body, 201), c') ->
  primary_key db ->
  exists data x id stored yv,
    req = inr data /\
    field data "title" = Some (title x) /\ field data "singer" = Some (singer x) /\
    field data "song_url" = Some (song_url x) /\ field data "image_url" = Some (image_url x) /\
    field data "year" = Some yv /\ json_int yv = inr (year x) /\
    insert_row db (songs c) x = inr (id, stored) /\
    body = JObj [("message", JStr "Song added successfully"); ("id", JNum (Z.of_N id))] /\
    songs c !! id = None /\
    songs c' = <[id := stored]> (songs c) /\
    (forall j y, songs c !! j = Some y -> songs c' !! j = Some y) /\
    error_log c' = error_log c.
Proof.
  intros H Hpk. unfold add_song in H.
  destruct (add_song_try db req c) as [e|[r c0]] eqn:Htry; [discriminate|].
  injection H as -> ->.
  apply add_song_try_inr in Htry as [[Hc _]|(data & x & id & stored & yv & Hreq & Ht & Hsi &
    Hsu & Hiu & Hy & Hint & Hins & Hr & ->)]; [discriminate|].
  injection Hr as ->.
  pose proof (Hpk _ _ _ _ Hins) as Hfree.
  exists data, x, id, stored, yv. repeat (split; [assumption || reflexivity|]).
  split; [|reflexivity].
  intros j y Hj. simpl. rewrite lookup_insert_ne; [exact Hj|]. intros <-. congruence.
Qed.

Lemma add_song_created_witness :
  exists data x id stored yv,
    @inr exn json test_body = inr data /\
    field data "title" = Some (title x) /\ field data "singer" = Some (singer x) /\
    field data "song_url" = Some (song_url x) /\ field data "image_url" = Some (image_url x) /\
    field data "year" = Some yv /\ json_int yv = inr (year x) /\
    insert_row plain_engine (songs one_song) x = inr (id, stored) /\
    JObj [("message", JStr "Song added successfully"); ("id", JNum 2)] =
      JObj [("message", JStr "Song added successfully"); ("id", JNum (Z.of_N id))] /\
    songs one_song !! id = None /\
    songs (snd (add_song plain_engine (inr test_body) one_song)) =
      <[id := stored]> (songs one_song) /\
    (forall j y, songs one_song !! j = Some y ->
       songs (snd (add_song plain_engine (inr test_body) one_song)) !! j = Some y) /\
    error_log (snd (add_song plain_engine (inr test_body) one_song)) = error_log one_song.
Proof.
  apply (add_song_created plain_engine (inr test_body) one_song).
  - vm_compute. reflexivity.
  - exact plain_engine_primary_key.
Defined.

(** X14. A request [add_song] does not answer with 201 stores nothing: the
    answer is then a 400, with the state as it was, or the 500 of the handler,
    with the table as it was and one more line in the error log. *)
Theorem add_song_refusal_stores_nothing db req c body code c' :
  add_song db req c = ((body, code), c') ->
  code <> 201 ->
  songs c' = songs c /\
  ((code = 400 /\ c' = c) \/
   (code = 500 /\ body = JObj [("error", JStr "Failed to add song")] /\
    c' = log_error "Error adding song" c)).
Proof.
  intros H Hcode. unfold add_song in H.
  destruct (add_song_try db req c) as [e|[r c0]] eqn:Htry.
  - injection H as <- <- <-. split; [reflexivity|]. right. auto.
  - injection H as -> ->.
    apply add_song_try_inr in Htry as [[Hc ->]|(data & x & id & stored & yv & _ & _ & _ &
      _ & _ & _ & _ & _ & Hr & _)].
    + simpl in Hc. subst code. split; [reflexivity|]. left. auto.
    + injection Hr as _ Hc. now destruct Hcode.
Qed.

Lemma add_song_refusal_stores_nothing_witness :
  songs (log_error "Error adding song" one_song) = songs one_song /\
  ((500 = 400 /\ log_error "Error adding song" one_song = one_song) \/
   (500 = 500 /\
    JObj [("error", JStr "Failed to add song")] = JObj [("error", JStr "Failed to add song")] /\
    log_error "Error adding song" one_song = log_error "Error adding song" one_song)).
Proof.
  apply (add_song_refusal_stores_nothing plain_engine
           (inr (JObj [("title", JNull); ("singer", JStr "Test Artist");
                       ("song_url", JStr "http://example.org/a.mp3");
                       ("image_url", JStr PLACEHOLDER); ("year", JNum 2020)]))
           one_song).
  - vm_compute. reflexivity.
  - lia.
Defined.


(** X15. A body that is an object without one of the required fields is
    answered 400 with a message that names the first field it lacks, in the
    order title, singer, song_url, image_url, year; the state stays as it
    was and the engine is not asked. *)
Theorem missing_field_named db o pre f post c :
  required_fields = pre ++ f :: post ->
  o <> [] ->
  (forall g, In g pre -> is_Some (member g o)) ->
  member f o = None ->
  add_song db (inr (JObj o)) c =
  (error_response (String.append "Missing required field: " f) 400, c).
Proof.
  intros Hreq Hne Hpre Hf. unfold add_song, add_song_try.
  cbn [from_python mbind raised_bind].
  assert (Ht : json_truthy (JObj o) = true) by (destruct o; [now destruct Hne|reflexivity]).
  rewrite Ht, Hreq. cbn [negb].
  rewrite (first_missing_at (JObj o) pre f post); [reflexivity| |].
  - intros g Hg. destruct (Hpre g Hg) as [v Hv]. now apply json_in_present with v.
  - now apply json_in_absent.
Qed.

Lemma missing_field_named_witness :
  add_song plain_engine
    (inr (JObj [("title", JStr "Test Song"); ("singer", JStr "Test Artist");
                ("year", JNum 2020)])) one_song =
  (error_response "Missing required field: song_url" 400, one_song).
Proof.
  apply (missing_field_named plain_engine _ ["title"; "singer"] "song_url" ["image_url"; "year"]).
  - reflexivity.
  - discriminate.
  - intros g [<-|[<-|[]]]; eexists; reflexivity.
  - reflexivity.
Defined.

(** X16. A body with all five fields whose year [int] does not accept (a
    word, a list, null) is not answered as a bad request: the exception goes
    to the handler, which answers 500; no row is stored and the error is
    logged. *)
Theorem unreadable_year_is_server_error db o c yv e :
  (forall g, In g required_fields -> is_Some (member g o)) ->
  member "year" o = Some yv ->
  json_int yv = inl e ->
  add_song db (inr (JObj o)) c =
  (error_response "Failed to add song" 500, log_error "Error adding song" c).
Proof.
  intros Hall Hy Hint. unfold add_song.
  destruct (Hall "title") as [t Ht]; [simpl; auto|].
  destruct (Hall "singer") as [si Hsi]; [simpl; auto|].
  destruct (Hall "song_url") as [su Hsu]; [simpl; auto|].
  destruct (Hall "image_url") as [iu Hiu]; [simpl; auto 6|].
  rewrite (add_song_try_complete db o c t si su iu yv Ht Hsi Hsu Hiu Hy), Hint.
  reflexivity.
Qed.

Lemma unreadable_year_is_server_error_witness :
  add_song plain_engine
    (inr (JObj [("title", JStr "Test Song"); ("singer", JStr "Test Artist");
                ("song_url", JStr "http://example.org/a.mp3");
                ("image_url", JStr PLACEHOLDER); ("year", JStr "last year")])) no_songs =
  (error_response "Failed to add song" 500, log_error "Error adding song" no_songs).
Proof.
  apply (unreadable_year_is_server_error plain_engine _ no_songs (JStr "last year")
           (Python ValueError)).
  - intros g [<-|[<-|[<-|[<-|[<-|[]]]]]]; eexists; reflexivity.
  - reflexivity.
  - reflexivity.
Defined.

(** ** [delete_song] *)



(** ** [edit_song] *)

(** One [if key in data] of [edit_song]: with a member under the key the
    attribute is assigned, without one the row stays; a body that is no
    object and passes the test cannot be indexed. *)
Lemma assign_inr data key set x x' :
  assign data key set x = inr x' ->
  match field data key with
  | Some v => exists y, set v x.1 = inr y /\ x' = (y, true)
  | None => x' = x
  end.
Proof.
  unfold assign. destruct data as [| | | |l|o]; simpl; try discriminate.
  - destruct (contains key s); simpl; [discriminate|]. now intros [= <-].
  - destruct (existsb _ l); simpl; [discriminate|]. now intros [= <-].
  - destruct (member key o) as [v|] eqn:E.
    + rewrite bool_decide_eq_true_2 by eauto. simpl.
      destruct (set v x.1) as [e|y]; simpl; [discriminate|]. intros [= <-]. eauto.
    + rewrite bool_decide_eq_false_2 by (intros [? ?]; discriminate). simpl.
      now intros [= <-].
Qed.

Lemma assign_object o key set x :
  assign (JObj o) key set x =
  match member key o with
  | Some v => match set v x.1 with inr y => inr (y, true) | inl e => inl e end
  | None => inr x
  end.
Proof.
  unfold assign. simpl. destruct (member key o) as [v|] eqn:E.
  - rewrite bool_decide_eq_true_2 by eauto. simpl. now destruct (set v x.1).
  - rewrite bool_decide_eq_false_2 by (intros [? ?]; discriminate). reflexivity.
Qed.

Lemma assign_skipped data key set x :
  json_in key data = inr false -> assign data key set x = inr x.
Proof. intros H. unfold assign. now rewrite H. Qed.

(** The row the five assignments make and the mark they leave. *)
Lemma assign_all_inr data old x :
  assign_all data old = inr x ->
  title x.1 = edited data "title" (title old) /\
  singer x.1 = edited data "singer" (singer old) /\
  song_url x.1 = edited data "song_url" (song_url old) /\
  image_url x.1 = edited data "image_url" (image_url old) /\
  match field data "year" with
  | Some v => json_int v = inr (year x.1)
  | None => year x.1 = year old
  end /\
  x.2 = touched data.
Proof.
  unfold assign_all, touched, edited, has_field, required_fields. cbn [existsb].
  destruct (assign data "title" with_title (old, false)) as [e|x1] eqn:H1;
    cbn [mbind raised_bind]; [discriminate|].
  destruct (assign data "singer" with_singer x1) as [e|x2] eqn:H2;
    cbn [mbind raised_bind]; [discriminate|].
  destruct (assign data "song_url" with_song_url x2) as [e|x3] eqn:H3;
    cbn [mbind raised_bind]; [discriminate|].
  destruct (assign data "image_url" with_image_url x3) as [e|x4] eqn:H4;
    cbn [mbind raised_bind]; [discriminate|].
  intros H5.
  apply assign_inr in H1, H2, H3, H4, H5.
  destruct (field data "title") as [v1|]; [destruct H1 as (y1 & [= <-] & ->)|subst x1];
  (destruct (field data "singer") as [v2|]; [destruct H2 as (y2 & [= <-] & ->)|subst x2]);
  (destruct (field data "song_url") as [v3|]; [destruct H3 as (y3 & [= <-] & ->)|subst x3]);
  (destruct (field data "image_url") as [v4|]; [destruct H4 as (y4 & [= <-] & ->)|subst x4]);
  (destruct (field data "year") as [v5|];
    [destruct H5 as (y5 & H5 & ->); unfold with_year in H5;
     destruct (json_int v5) as [e|z]; [discriminate|]; injection H5 as <-
    |subst x]);
  simpl; auto 10.
Qed.

(** X18. Whenever [edit_song] answers 200, a song had the id and the body
    was a true value; the row that is committed has, column by column, the
    member of the body under the name of the column when the body is an
    object that has one, and what the song had otherwise, the year after
    [int]; the engine is asked only when the body names a column; and only
    the row of this id is written. *)
Theorem edit_song_updated db id req c body c' :
  edit_song db id req c = ((body, 200), c') ->
  exists old data new stored,
    songs c !! id = Some old /\ req = inr data /\ json_truthy data = true /\
    title new = edited data "title" (title old) /\
    singer new = edited data "singer" (singer old) /\
    song_url new = edited data "song_url" (song_url old) /\
    image_url new = edited data "image_url" (image_url old) /\
    match field data "year" with
    | Some v => json_int v = inr (year new)
    | None => year new = year old
    end /\
    (if touched data then update_row db old new = inr stored else stored = old) /\
    c' = set_songs (<[id := stored]> (songs c)) c /\
    (forall j, j <> id -> songs c' !! j = songs c !! j).
Proof.
  unfold edit_song, edit_song_try, get_or_404.
  destruct (songs c !! id) as [old|] eqn:Hold; cbn [mbind raised_bind]; [|discriminate].
  destruct req as [e|data]; cbn [from_python mbind raised_bind]; [discriminate|].
  destruct (json_truthy data) eqn:Ht; cbn [negb]; [|discriminate].
  destruct (assign_all data old) as [e|x] eqn:Hx; cbn [mbind raised_bind]; [discriminate|].
  destruct (commit_update db old x) as [e|stored] eqn:Hc; cbn [mbind raised_bind];
    [discriminate|].
  intros [= <- <-].
  apply assign_all_inr in Hx as (H1 & H2 & H3 & H4 & H5 & H6).
  exists old, data, x.1, stored. repeat (split; [assumption || reflexivity|]).
  split; [|split; [reflexivity|]].
  - unfold commit_update in Hc. rewrite H6 in Hc.
    destruct (touched data); [exact Hc|]. now injection Hc as <-.
  - intros j Hj. simpl. now apply lookup_insert_ne.
Qed.

Lemma edit_song_updated_witness :
  exists old data new stored,
    songs one_song !! 1%N = Some old /\
    @inr exn json (JObj [("year", JStr "1999"); ("rating", JNum 5)]) = inr data /\
    json_truthy data = true /\
    title new = edited data "title" (title old) /\
    singer new = edited data "singer" (singer old) /\
    song_url new = edited data "song_url" (song_url old) /\
    image_url new = edited data "image_url" (image_url old) /\
    match field data "year" with
    | Some v => json_int v = inr (year new)
    | None => year new = year old
    end /\
    (if touched data then update_row plain_engine old new = inr stored else stored = old) /\
    snd (edit_song plain_engine 1 (inr (JObj [("year", JStr "1999"); ("rating", JNum 5)]))
           one_song) =
      set_songs (<[1%N := stored]> (songs one_song)) one_song /\
    (forall j, j <> 1%N ->
       songs (snd (edit_song plain_engine 1
                     (inr (JObj [("year", JStr "1999"); ("rating", JNum 5)])) one_song)) !! j =
       songs one_song !! j).
Proof.
  eapply (edit_song_updated plain_engine 1
            (inr (JObj [("year", JStr "1999"); ("rating", JNum 5)])) one_song).
  vm_compute. reflexivity.
Defined.

(** X19. An edit is all or nothing: when the year of the body is one
    [int] does not accept, the route answers 500 and the song keeps every
    column it had, the ones the body names before the year too; whatever
    else the body holds, the engine is not asked. *)
Theorem edit_song_all_or_nothing db id o c old yv e :
  songs c !! id = Some old ->
  member "year" o = Some yv ->
  json_int yv = inl e ->
  edit_song db id (inr (JObj o)) c =
  (error_response "Failed to update song" 500, log_error "Error updating song" c).
Proof.
  intros Hold Hy Hint. unfold edit_song, edit_song_try, get_or_404.
  rewrite Hold. cbn [from_python mbind raised_bind].
  assert (Ht : json_truthy (JObj o) = true) by (destruct o; [discriminate Hy|reflexivity]).
  rewrite Ht. cbn [negb]. unfold assign_all.
  rewrite assign_object.
  destruct (member "title" o); cbn [with_title mbind raised_bind fst];
  (rewrite assign_object;
   destruct (member "singer" o); cbn [with_singer mbind raised_bind fst]);
  (rewrite assign_object;
   destruct (member "song_url" o); cbn [with_song_url mbind raised_bind fst]);
  (rewrite assign_object;
   destruct (member "image_url" o); cbn [with_image_url mbind raised_bind fst]);
  rewrite assign_object, Hy; unfold with_year; rewrite Hint; reflexivity.
Qed.

Lemma edit_song_all_or_nothing_witness :
  edit_song plain_engine 1
    (inr (JObj [("title", JStr "Another Song"); ("year", JStr "last year")])) one_song =
  (error_response "Failed to update song" 500, log_error "Error updating song" one_song).
Proof.
  apply (edit_song_all_or_nothing plain_engine 1 _ one_song test_song (JStr "last year")
           (Python ValueError)); reflexivity.
Defined.

(** X20. [edit_song] looks the song up before it reads the body: for an id
    no song has, every request, one without a body too, is answered 500 by
    the handler, not 404 and not 400; for an id a song has, a body that is
    not a true value (null, an empty object) is answered 400 and nothing is
    logged. *)
Theorem edit_song_lookup_first db id data c :
  json_truthy data = false ->
  edit_song db id (inr data) c =
  match songs c !! id with
  | Some _ => (error_response "No data provided" 400, c)
  | None => (error_response "Failed to update song" 500, log_error "Error updating song" c)
  end /\
  (songs c !! id = None ->
   forall req, edit_song db id req c =
     (error_response "Failed to update song" 500, log_error "Error updating song" c)).
Proof.
  intros Ht. unfold edit_song, edit_song_try, get_or_404. split.
  - destruct (songs c !! id); cbn [from_python mbind raised_bind]; [|reflexivity].
    now rewrite Ht.
  - intros -> req. reflexivity.
Qed.

Lemma edit_song_lookup_first_witness :
  edit_song plain_engine 7 (inr (JObj [])) one_song =
  (error_response "Failed to update song" 500, log_error "Error updating song" one_song).
Proof.
  exact (proj1 (edit_song_lookup_first plain_engine 7 (JObj []) one_song eq_refl)).
Defined.

(** X21. A body that is a true value and names none of the five columns (an
    object with other keys, a list, a string that holds none of the names)
    is answered 200 with the message of a successful update, though nothing
    is written: the state is the one before and the engine is not asked. *)
Theorem edit_song_without_columns db id data c old :
  songs c !! id = Some old ->
  json_truthy data = true ->
  (forall k, In k required_fields -> json_in k data = inr false) ->
  edit_song db id (inr data) c =
  ((JObj [("message", JStr "Song updated successfully")], 200), c).
Proof.
  intros Hold Ht Hno. unfold edit_song, edit_song_try, get_or_404.
  rewrite Hold. cbn [from_python mbind raised_bind]. rewrite Ht. cbn [negb].
  unfold assign_all.
  rewrite (assign_skipped data "title") by (apply Hno; simpl; auto).
  cbn [mbind raised_bind].
  rewrite (assign_skipped data "singer") by (apply Hno; simpl; auto).
  cbn [mbind raised_bind].
  rewrite (assign_skipped data "song_url") by (apply Hno; simpl; auto).
  cbn [mbind raised_bind].
  rewrite (assign_skipped data "image_url") by (apply Hno; simpl; auto 6).
  cbn [mbind raised_bind].
  rewrite (assign_skipped data "year") by (apply Hno; simpl; auto 6).
  cbn [mbind raised_bind commit_update snd].
  unfold set_songs. rewrite insert_id by exact Hold. now destruct c.
Qed.

Lemma edit_song_without_columns_witness :
  edit_song plain_engine 1 (inr (JObj [("rating", JNum 5)])) one_song =
  ((JObj [("message", JStr "Song updated successfully")], 200), one_song).
Proof.
  apply (edit_song_without_columns plain_engine 1 _ one_song test_song).
  - reflexivity.
  - reflexivity.
  - intros k [<-|[<-|[<-|[<-|[<-|[]]]]]]; reflexivity.
Defined.

(** ** [get_songs], and the routes one after another *)

Lemma song_json_inj r r' : song_json r = song_json r' -> r = r'.
Proof.
  destruct r as [i [t si su iu y]], r' as [i' [t' si' su' iu' y']]. unfold song_json. simpl.
  intros [= Hi -> -> -> -> ->]. apply N2Z.inj in Hi. now subst.
Qed.

Lemma listed db (t : gmap N song) r :
  lists_rows db ->
  In (song_json r) (map song_json (all_rows db t)) <-> t !! r.1 = Some r.2.
Proof.
  intros Hperm. rewrite in_map_iff. split.
  - intros (r' & Heq & Hin). apply song_json_inj in Heq as ->.
    apply list_elem_of_In in Hin. rewrite (Hperm t) in Hin.
    destruct r. now apply elem_of_map_to_list.
  - intros H. exists r. split; [reflexivity|]. apply list_elem_of_In.
    rewrite (Hperm t). destruct r. now apply elem_of_map_to_list.
Qed.

(** X22. With an engine whose query gives every row once, [get_songs]
    answers 200 with a list that has one entry for each song of the table and
    no other: as many entries as songs, and the dict of a row is in the list
    exactly when the row is in the table.  The state is not changed. *)
Theorem get_songs_lists_table db c :
  lists_rows db ->
  exists l,
    get_songs db c = ((JList l, 200), c) /\
    length l = size (songs c) /\
    (forall id x, In (song_json (id, x)) l <-> songs c !! id = Some x).
Proof.
  intros Hperm. exists (map song_json (all_rows db (songs c))).
  split; [reflexivity|]. split.
  - rewrite length_map, (Hperm (songs c)). apply length_map_to_list.
  - intros id x. apply (listed db (songs c) (id, x) Hperm).
Qed.

Lemma get_songs_lists_table_witness :
  exists l,
    get_songs plain_engine one_song = ((JList l, 200), one_song) /\
    length l = size (songs one_song) /\
    (forall id x, In (song_json (id, x)) l <-> songs one_song !! id = Some x).
Proof.
  apply (get_songs_lists_table plain_engine one_song). exact plain_engine_lists_rows.
Defined.

(** X23. A song that was added is listed: after [add_song] has answered
    201 with an id, [get_songs] has an entry with this id, whose columns are
    the ones the engine stored for the row. *)
Theorem added_song_is_listed db req c msg id c' :
  add_song db req c = ((JObj [("message", msg); ("id", JNum (Z.of_N id))], 201), c') ->
  lists_rows db ->
  exists x stored l,
    insert_row db (songs c) x = inr (id, stored) /\
    get_songs db c' = ((JList l, 200), c') /\
    In (song_json (id, stored)) l.
Proof.
  intros H Hperm. unfold add_song in H.
  destruct (add_song_try db req c) as [e|[r c0]] eqn:Htry; [discriminate|].
  injection H as -> ->.
  apply add_song_try_inr in Htry as [[Hc _]|(data & x & id' & stored & yv & _ & _ & _ & _ &
    _ & _ & _ & Hins & Hr & ->)]; [discriminate|].
  injection Hr as _ Hid. apply N2Z.inj in Hid as ->.
  exists x, stored, (map song_json (all_rows db (<[id' := stored]> (songs c)))).
  split; [exact Hins|]. split; [reflexivity|].
  apply (proj2 (listed db (<[id' := stored]> (songs c)) (id', stored) Hperm)).
  simpl. apply lookup_insert_eq.
Qed.

Lemma added_song_is_listed_witness :
  exists x stored l,
    insert_row plain_engine (songs one_song) x = inr (2%N, stored) /\
    get_songs plain_engine (snd (add_song plain_engine (inr test_body) one_song)) =
      ((JList l, 200), snd (add_song plain_engine (inr test_body) one_song)) /\
    In (song_json (2%N, stored)) l.
Proof.
  apply (added_song_is_listed plain_engine (inr test_body) one_song
           (JStr "Song added successfully") 2).
  - vm_compute. reflexivity.
  - exact plain_engine_lists_rows.
Defined.





End CatalogFacts.
